(** * A shallow embedding of the hyperMILL NC-tool HTML parser

    Source: [src/src/hypermill_nctools_html_exporter/parse_html.py] and
    [util.py].  Python [str] values are modelled as lists of Unicode code
    points ([ustr]); Python [float] as IEEE-754 binary64 through
    [SpecFloat] (prec 53, emax 1024); dictionaries as stdpp [gmap]s; the
    parsing pass as explicit state passing in an error monad whose errors
    are the Python exceptions that can escape [parse_nctools_html]. *)

From Stdlib Require Import String Ascii ZArith Lia.
From Stdlib Require Import Floats.SpecFloat.
From stdpp Require Import base list gmap.

Open Scope N_scope.

(* ------------------------------------------------------------------ *)
(** ** Python strings as code-point lists *)

Abbreviation ustr := (list N).

(** Decoding of UTF-8 byte strings, used to write the source's (partly
    Japanese) literals exactly as they appear in the Python file. *)
Fixpoint utf8_dec (bs : list N) : ustr :=
  match bs with
  | [] => []
  | b0 :: r =>
      if b0 <? 128 then b0 :: utf8_dec r
      else if b0 <? 224 then
        match r with
        | b1 :: r1 => ((b0 - 192) * 64 + (b1 - 128)) :: utf8_dec r1
        | [] => []
        end
      else if b0 <? 240 then
        match r with
        | b1 :: b2 :: r2 =>
            ((b0 - 224) * 4096 + (b1 - 128) * 64 + (b2 - 128)) :: utf8_dec r2
        | _ => []
        end
      else
        match r with
        | b1 :: b2 :: b3 :: r3 =>
            ((b0 - 240) * 262144 + (b1 - 128) * 4096 + (b2 - 128) * 64
             + (b3 - 128)) :: utf8_dec r3
        | _ => []
        end
  end.

Definition u (s : string) : ustr :=
  utf8_dec (List.map (fun a => N_of_ascii a) (list_ascii_of_string s)).

(** [str.isspace] / regex [\s] on [str] (Unicode 14.0, CPython 3.11). *)
Definition space_table : list N :=
  [9; 10; 11; 12; 13; 28; 29; 30; 31; 32; 133; 160; 5760;
   8192; 8193; 8194; 8195; 8196; 8197; 8198; 8199; 8200; 8201; 8202;
   8232; 8233; 8239; 8287; 12288].

Definition is_space (c : N) : bool := existsb (N.eqb c) space_table.

(** Regex [\d] on [str]: Unicode category Nd.  Every Nd character lies in
    a run of ten consecutive code points 0..9; these are the zeros. *)
Definition digit_zeros : list N :=
  [0x30; 0x660; 0x6f0; 0x7c0; 0x966; 0x9e6; 0xa66; 0xae6; 0xb66; 0xbe6;
   0xc66; 0xce6; 0xd66; 0xde6; 0xe50; 0xed0; 0xf20; 0x1040; 0x1090;
   0x17e0; 0x1810; 0x1946; 0x19d0; 0x1a80; 0x1a90; 0x1b50; 0x1bb0;
   0x1c40; 0x1c50; 0xa620; 0xa8d0; 0xa900; 0xa9d0; 0xa9f0; 0xaa50;
   0xabf0; 0xff10; 0x104a0; 0x10d30; 0x11066; 0x110f0; 0x11136; 0x111d0;
   0x112f0; 0x11450; 0x114d0; 0x11650; 0x116c0; 0x11730; 0x118e0;
   0x11950; 0x11c50; 0x11d50; 0x11da0; 0x16a60; 0x16ac0; 0x16b50;
   0x1d7ce; 0x1d7d8; 0x1d7e2; 0x1d7ec; 0x1d7f6; 0x1e140; 0x1e2f0;
   0x1e950; 0x1fbf0].

Definition in_run (c z : N) : bool := (z <=? c) && (c <? z + 10).

Definition is_digit (c : N) : bool := existsb (in_run c) digit_zeros.

(** [unicodedata.decimal], as used by [int()] and [float()]. *)
Definition digit_value (c : N) : N :=
  match List.find (in_run c) digit_zeros with
  | Some z => c - z
  | None => 0
  end.

(* ------------------------------------------------------------------ *)
(** ** util.clean_text *)

Fixpoint drop_ws (s : ustr) : ustr :=
  match s with
  | c :: t => if is_space c then drop_ws t else s
  | [] => []
  end.

(** [s.strip()] *)
Definition py_strip (s : ustr) : ustr := rev (drop_ws (rev (drop_ws s))).

(** [re.compile(r"\s+").sub(" ", s)]: each maximal run of whitespace is
    replaced by one space; [in_ws] says whether the scan is inside a run
    that has already been replaced. *)
Fixpoint ws_sub (in_ws : bool) (s : ustr) : ustr :=
  match s with
  | [] => []
  | c :: t =>
      if is_space c then (if in_ws then ws_sub true t else 32 :: ws_sub true t)
      else c :: ws_sub false t
  end.

(** [def clean_text(s): return _WS.sub(" ", (s or "").strip())] *)
Definition clean_text (s : ustr) : ustr := ws_sub false (py_strip s).

(* ------------------------------------------------------------------ *)
(** ** The regular expressions of the module ([re], backtracking) *)

(** The fragment of Python's [re] syntax used by the heading patterns and
    the numeral pattern: character classes, sequencing, greedy/lazy star,
    greedy [?], numbered groups and [$]. *)
Inductive rx :=
  | REps
  | RPred (p : N -> bool)
  | RSeq (a b : rx)
  | RStar (greedy : bool) (a : rx)
  | ROpt (a : rx)
  | RGroup (i : nat) (a : rx)
  | REnd.

(** Captured groups, most recent first. *)
Abbreviation caps := (list (nat * ustr)).

(** [$] without MULTILINE: end of the string or before a final newline. *)
Definition at_end (s : ustr) : bool :=
  match s with
  | [] => true
  | [c] => c =? 10
  | _ => false
  end.

(** One star: [ma] matches one iteration.  A greedy star first tries one
    more iteration, a lazy one first tries the continuation.  An iteration
    must consume input (all starred atoms below are single characters), so
    [S (length s)] iterations are never exhausted. *)
Fixpoint star_loop (ma : ustr -> caps -> (ustr -> caps -> option caps) -> option caps)
    (g : bool) (k : ustr -> caps -> option caps) (n : nat) (s : ustr) (c : caps)
    : option caps :=
  match n with
  | O => k s c
  | S n' =>
      let more (_ : unit) :=
        ma s c (fun s' c' =>
          if (length s' <? length s)%nat then star_loop ma g k n' s' c' else None) in
      if g then
        match more tt with Some x => Some x | None => k s c end
      else
        match k s c with Some x => Some x | None => more tt end
  end.

(** Backtracking matcher in continuation-passing style, exploring the
    alternatives in the order of [sre]. *)
Fixpoint mt (r : rx) (s : ustr) (c : caps)
    (k : ustr -> caps -> option caps) {struct r} : option caps :=
  match r with
  | REps => k s c
  | RPred p =>
      match s with
      | x :: t => if p x then k t c else None
      | [] => None
      end
  | RSeq a b => mt a s c (fun s' c' => mt b s' c' k)
  | ROpt a =>
      match mt a s c k with
      | Some x => Some x
      | None => k s c
      end
  | RGroup i a =>
      mt a s c (fun s' c' => k s' ((i, firstn (length s - length s') s) :: c'))
  | REnd => if at_end s then k s c else None
  | RStar g a => star_loop (mt a) g k (S (length s)) s c
  end.

(** [pattern.search(s)]: the leftmost position where the pattern matches. *)
Fixpoint rx_search (r : rx) (s : ustr) : option caps :=
  match mt r s [] (fun _ c => Some c) with
  | Some c => Some c
  | None =>
      match s with
      | [] => None
      | _ :: t => rx_search r t
      end
  end.

(** [m.group(i)] *)
Definition group (i : nat) (c : caps) : ustr :=
  match List.find (fun p => Nat.eqb (fst p) i) c with
  | Some (_, v) => v
  | None => []
  end.

Definition rx_seq (l : list rx) : rx := fold_right RSeq REps l.
Definition rx_lit (s : ustr) : rx := rx_seq (List.map (fun c => RPred (N.eqb c)) s).
Definition rx_plus (g : bool) (a : rx) : rx := RSeq a (RStar g a).

(** [.] (no DOTALL), [\s], [\d] *)
Definition r_dot : rx := RPred (fun c => negb (c =? 10)).
Definition r_ws : rx := RPred is_space.
Definition r_dig : rx := RPred is_digit.

(** [NCツール\(N\):(.+?)\s*\((\d+)\)\s*$] and its English twin *)
Definition nctool_h3 (lit : ustr) : rx :=
  rx_seq [rx_lit lit; RGroup 1 (rx_plus false r_dot); RStar true r_ws;
          rx_lit (u "("); RGroup 2 (rx_plus true r_dig); rx_lit (u ")");
          RStar true r_ws; REnd].
Definition _RE_NCTOOL_H3_JA : rx := nctool_h3 (u "NCツール(N):").
Definition _RE_NCTOOL_H3_EN : rx := nctool_h3 (u "NC-Tool:").

(** [工具:\s*(.+?)\s*\((.+?)\)\s*$] and its English twin *)
Definition tool_h3 (lit : ustr) : rx :=
  rx_seq [rx_lit lit; RStar true r_ws; RGroup 1 (rx_plus false r_dot);
          RStar true r_ws; rx_lit (u "("); RGroup 2 (rx_plus false r_dot);
          rx_lit (u ")"); RStar true r_ws; REnd].
Definition _RE_TOOL_H3_JA : rx := tool_h3 (u "工具:").
Definition _RE_TOOL_H3_EN : rx := tool_h3 (u "Tool:").

(** [ホルダー:\s*(.+)\s*$] and the three patterns of the same shape *)
Definition name_h3 (lit : ustr) : rx :=
  rx_seq [rx_lit lit; RStar true r_ws; RGroup 1 (rx_plus true r_dot);
          RStar true r_ws; REnd].
Definition _RE_HOLDER_H3_JA : rx := name_h3 (u "ホルダー:").
Definition _RE_HOLDER_H3_EN : rx := name_h3 (u "Holder:").
Definition _RE_SUBHOLDER_H3_JA : rx := name_h3 (u "サブホルダー:").
Definition _RE_EXTENSION_H3_EN : rx := name_h3 (u "Extension:").

(** [_match_any]: the first pattern of the list that matches. *)
Fixpoint _match_any (pats : list rx) (text : ustr) : option caps :=
  match pats with
  | [] => None
  | pat :: rest =>
      match rx_search pat text with
      | Some m => Some m
      | None => _match_any rest text
      end
  end.

(** [[-+]?\d+(?:\.\d+)?], with the whole match as group 0 *)
Definition num_re : rx :=
  RGroup 0 (rx_seq [ROpt (RPred (fun c => (c =? 45) || (c =? 43)));
                    rx_plus true r_dig;
                    ROpt (rx_seq [rx_lit (u "."); rx_plus true r_dig])]).

(* ------------------------------------------------------------------ *)
(** ** Python floats: IEEE-754 binary64 *)

Abbreviation float := spec_float.
Definition prec : Z := 53.
Definition emax : Z := 1024.

Definition fadd : float -> float -> float := SFadd prec emax.
Definition fsub : float -> float -> float := SFsub prec emax.
Definition fabs : float -> float := SFabs.
Definition fltb : float -> float -> bool := SFltb.

(** The correctly rounded value of [(-1)^neg * n / 10^k] ([n >= 0]), which
    is what [float()] returns for a decimal numeral.  A zero keeps its sign
    ([float("-0") == -0.0]); too large a value rounds to infinity. *)
Definition dec_to_float (neg : bool) (n : Z) (k : nat) : float :=
  if Z.eqb n 0 then S754_zero neg
  else
    let '(m, e, l) := SFdiv_core_binary prec emax n 0 (Z.pow 10 (Z.of_nat k)) 0 in
    binary_round_aux prec emax neg m e l.

(** [float(int)] for the integers that occur below (exactly representable). *)
Definition float_of_Z (z : Z) : float := binary_normalize prec emax z 0 false.

(** The float with exact value [m * 2^e]. *)
Definition fin (m e : Z) : float := binary_normalize prec emax m e false.

(** Decimal value of a digit string ([int()] on Unicode digits). *)
Definition digits_value (ds : ustr) : Z :=
  fold_left (fun acc c => (acc * 10 + Z.of_N (digit_value c))%Z) ds 0%Z.

Fixpoint span_digits (s : ustr) : ustr * ustr :=
  match s with
  | c :: t =>
      if is_digit c then let '(ds, r) := span_digits t in (c :: ds, r) else ([], s)
  | [] => ([], [])
  end.

(** [float(text)] on a text matched by [num_re]: sign, integer digits,
    optional fraction.  On such a text [float()] cannot raise. *)
Definition float_of_numeral (text : ustr) : float :=
  let '(neg, t1) :=
    match text with
    | 45 :: t => (true, t)
    | 43 :: t => (false, t)
    | _ => (false, text)
    end in
  let '(ip, t2) := span_digits t1 in
  let fp := match t2 with 46 :: t3 => fst (span_digits t3) | _ => [] end in
  dec_to_float neg (digits_value (ip ++ fp)) (length fp).

(** [str.maketrans("０１２３４５６７８９．－＋", "0123456789.-+")] *)
Definition trans_table : list (N * N) :=
  combine (u "０１２３４５６７８９．－＋") (u "0123456789.-+").

(** [s.translate(trans)], one character *)
Definition trans (c : N) : N :=
  match List.find (fun p => fst p =? c) trans_table with
  | Some (_, d) => d
  | None => c
  end.

(** [_to_float_mm(s)] *)
Definition _to_float_mm (s : ustr) : option float :=
  match s with
  | [] => None
  | _ =>
      let s := clean_text s in
      let s := List.map trans s in
      let s := List.filter (fun c => negb (c =? 44)) s in
      match rx_search num_re s with
      | None => None
      | Some m => Some (float_of_numeral (group 0 m))
      end
  end.

(* ------------------------------------------------------------------ *)
(** ** Exceptions and the error monad *)

Inductive exc :=
  | RuntimeError (msg : ustr)
  | OverflowError
  | ValueError.

Inductive res (A : Type) :=
  | Ok (a : A)
  | Err (e : exc).
Arguments Ok {A} a.
Arguments Err {A} e.

Global Instance res_ret : MRet res := fun A a => Ok a.
Global Instance res_bind : MBind res :=
  fun A B f m => match m with Ok a => f a | Err e => Err e end.

(* ------------------------------------------------------------------ *)
(** ** _fmt_mm *)

(** Round half to even of [m * 2^e] (signed [m]). *)
Definition round_half_even (m e : Z) : Z :=
  if Z.leb 0 e then (m * 2 ^ e)%Z
  else
    let d := (2 ^ (- e))%Z in
    let '(q, r) := Z.div_eucl m d in
    match Z.compare (2 * r) d with
    | Lt => q
    | Gt => (q + 1)%Z
    | Eq => if Z.even q then q else (q + 1)%Z
    end.

Definition signed (s : bool) (m : positive) : Z := if s then Zneg m else Zpos m.

(** [round(x)] on a float: an int, or OverflowError / ValueError. *)
Definition py_round (x : float) : res Z :=
  match x with
  | S754_zero _ => Ok 0%Z
  | S754_infinity _ => Err OverflowError
  | S754_nan => Err ValueError
  | S754_finite s m e => Ok (round_half_even (signed s m) e)
  end.

Fixpoint dec_digits (fuel : nat) (n : N) (acc : ustr) : ustr :=
  match fuel with
  | O => acc
  | S f =>
      let acc' := (48 + n mod 10) :: acc in
      if n <? 10 then acc' else dec_digits f (n / 10) acc'
  end.

Definition digits_of_N (n : N) : ustr := dec_digits (S (N.size_nat n)) n [].

(** [str(n)] on an int *)
Definition str_of_Z (z : Z) : ustr :=
  match z with
  | Zneg p => 45 :: digits_of_N (Npos p)
  | _ => digits_of_N (Z.to_N z)
  end.

(** [f"{x:.3f}"]: the exact binary value rounded half-even to three
    decimals. *)
Definition fmt_fixed3 (x : float) : ustr :=
  let body (q : N) :=
    digits_of_N (q / 1000) ++ [46] ++
    let f := q mod 1000 in
    (if f <? 100 then [48] else []) ++ (if f <? 10 then [48] else []) ++ digits_of_N f in
  match x with
  | S754_zero s => (if s then [45] else []) ++ body 0
  | S754_finite s m e =>
      (if s then [45] else []) ++ body (Z.to_N (round_half_even (Zpos m * 1000) e))
  | S754_infinity s => (if s then [45] else []) ++ u "inf"
  | S754_nan => u "nan"
  end.

(** [s.rstrip(ch)] *)
Definition rstrip (ch : N) (s : ustr) : ustr :=
  let fix drop (l : ustr) := match l with c :: t => if c =? ch then drop t else l | [] => [] end in
  rev (drop (rev s)).

(** The literal [1e-9] *)
Definition one_e_minus_9 : float := dec_to_float false 1 9.

(** [_fmt_mm(x)] *)
Definition _fmt_mm (x : option float) : res ustr :=
  match x with
  | None => Ok []
  | Some x =>
      r ← py_round x;
      if fltb (fabs (fsub x (float_of_Z r))) one_e_minus_9 then Ok (str_of_Z r)
      else Ok (rstrip 46 (rstrip 48 (fmt_fixed3 x)))
  end.

(* ------------------------------------------------------------------ *)
(** ** Key normalisation *)

(** [_GRID_HEADER_MAP] *)
Definition _GRID_HEADER_MAP : list (ustr * ustr) :=
  [(u "カップリング種類", u "coupling_type"); (u "Coupling type", u "coupling_type");
   (u "名称", u "name"); (u "Name", u "name");
   (u "全長", u "reach"); (u "Reach", u "reach")].

(** [_KV_KEY_MAP] *)
Definition _KV_KEY_MAP : list (ustr * ustr) :=
  [(u "NCツール コメント", u "nctool_comment"); (u "NC-Tool comment", u "nctool_comment");
   (u "ホルダー コメント", u "holder_comment"); (u "Holder comment", u "holder_comment");
   (u "直径", u "diameter"); (u "Diameter", u "diameter");
   (u "コーナー半径", u "corner_radius"); (u "Corner radius", u "corner_radius");
   (u "刃数", u "cutting_edges"); (u "Cutting edges", u "cutting_edges");
   (u "切削長さ (ap)", u "cutting_length"); (u "Cutting length", u "cutting_length");
   (u "シャンク直径", u "shank_diameter"); (u "Shank diameter", u "shank_diameter");
   (u "面取り長さ", u "chamfer_length"); (u "Chamfer length", u "chamfer_length");
   (u "先端長さ", u "tip_length"); (u "Tip length", u "tip_length");
   (u "テーパー角度", u "cone_angle"); (u "Cone angle", u "cone_angle");
   (u "スピンドル回転方向", u "spindle_orientation");
   (u "Spindle orientation", u "spindle_orientation")].

(** [MAP.get(k, k)] on a dict literal without repeated keys *)
Definition map_get_or_self (m : list (ustr * ustr)) (k : ustr) : ustr :=
  match List.find (fun p => bool_decide (fst p = k)) m with
  | Some (_, v) => v
  | None => k
  end.

Definition _norm_grid_header (h : ustr) : ustr := map_get_or_self _GRID_HEADER_MAP (clean_text h).
Definition _norm_kv_key (k : ustr) : ustr := map_get_or_self _KV_KEY_MAP (clean_text k).

(* ------------------------------------------------------------------ *)
(** ** Tables *)

(** What the parser reads of a [<table>]: its [border] attribute and, for
    each [<tr>], the texts [td.get_text(" ", strip=True)] of its cells. *)
Record table := {
  tbl_border : option ustr;
  tbl_rows : list (list ustr)
}.

Abbreviation dict := (gmap ustr ustr).

(** [d.get(k, "")] *)
Definition dget (d : dict) (k : ustr) : ustr := default [] (d !! k).

(** String equality. *)
Definition ueqb (a b : ustr) : bool := bool_decide (a = b).

(** One [<tr>] of [_parse_kv_table]; [if tds[0]] tests non-emptiness. *)
Definition kv_row (d : dict) (row : list ustr) : dict :=
  match List.map clean_text row with
  | [k; v] => if ueqb k [] then d else <[_norm_kv_key k := v]> d
  | [k0; v0; k2; v2] =>
      let d := if ueqb k0 [] then d else <[_norm_kv_key k0 := v0]> d in
      if ueqb k2 [] then d else <[_norm_kv_key k2 := v2]> d
  | _ => d
  end.

(** [_parse_kv_table(table)] *)
Definition _parse_kv_table (t : table) : dict := fold_left kv_row (tbl_rows t) ∅.

(** [{header[i]: (vals[i] if i < len(vals) else "") for i in range(len(header))}] *)
Definition grid_row (header vals : list ustr) : dict :=
  fold_left (fun d i => <[nth i header [] := nth i vals []]> d) (seq 0 (length header)) ∅.

(** [_parse_grid_table(table)] *)
Definition _parse_grid_table (t : table) : list dict :=
  match tbl_rows t with
  | [] => []
  | tr0 :: trs =>
      let header := List.map (fun h => _norm_grid_header (clean_text h)) tr0 in
      List.flat_map (fun tr =>
        let vals := List.map clean_text tr in
        if existsb (fun v => negb (bool_decide (v = []))) vals
        then [grid_row header vals] else []) trs
  end.

(* ------------------------------------------------------------------ *)
(** ** NcToolRecord (model.py) *)

(** The [str] attributes of the dataclass. *)
Inductive sattr :=
  | F_nctool_name | F_nctool_comment
  | F_holder_name | F_holder_length | F_tool_name | F_tool_length | F_extensions_str
  | F_ext_overhang_mm | F_tool_overhang_mm | F_overhang_mm | F_total_length_mm
  | F_image_rel_src
  | F_tool_type | F_tool_page_name
  | F_tool_diameter_mm | F_tool_corner_radius_mm | F_tool_flutes
  | F_tool_cut_length_ap_mm | F_tool_shank_d_mm | F_tool_chamfer_len_mm
  | F_tool_tip_len_mm | F_tool_taper_angle_deg | F_spindle_rotation
  | F_cond_S_n | F_cond_FX | F_cond_FZ | F_cond_Fr | F_cond_ap | F_cond_ae
  | F_holder_page_name | F_holder_comment
  | F_source_html_path.

Global Instance sattr_eq_dec : EqDecision sattr.
Proof. solve_decision. Defined.

(** The dataclass: its [str] attributes as one function of the attribute
    name, the others as fields. *)
Record NcToolRecord := {
  nctool_no : option Z;
  attr : sattr -> ustr;
  image_abs_path : option ustr;
  image_cached_path : option ustr;
  warnings : list ustr
}.

Definition nctool_name (r : NcToolRecord) : ustr := attr r F_nctool_name.
Definition ext_overhang_mm (r : NcToolRecord) : ustr := attr r F_ext_overhang_mm.
Definition tool_overhang_mm (r : NcToolRecord) : ustr := attr r F_tool_overhang_mm.
Definition overhang_mm (r : NcToolRecord) : ustr := attr r F_overhang_mm.

(** [NcToolRecord(source_html_path=path)] *)
Definition new_record (path : ustr) : NcToolRecord := {|
  nctool_no := None;
  attr := fun f => match f with F_source_html_path => path | _ => [] end;
  image_abs_path := None;
  image_cached_path := None;
  warnings := []
|}.

(** [r.<f> = v] *)
Definition set_attr (f : sattr) (v : ustr) (r : NcToolRecord) : NcToolRecord := {|
  nctool_no := nctool_no r;
  attr := fun g => if decide (g = f) then v else attr r g;
  image_abs_path := image_abs_path r;
  image_cached_path := image_cached_path r;
  warnings := warnings r
|}.

(** [r.nctool_no = n] *)
Definition set_no (n : Z) (r : NcToolRecord) : NcToolRecord := {|
  nctool_no := Some n;
  attr := attr r;
  image_abs_path := image_abs_path r;
  image_cached_path := image_cached_path r;
  warnings := warnings r
|}.

(** [r.warnings.append(w)] *)
Definition add_warning (w : ustr) (r : NcToolRecord) : NcToolRecord := {|
  nctool_no := nctool_no r;
  attr := attr r;
  image_abs_path := image_abs_path r;
  image_cached_path := image_cached_path r;
  warnings := warnings r ++ [w]
|}.
(* ------------------------------------------------------------------ *)
(** ** Pages and the component table of an NC-tool page *)

(** What the parser reads of a [div.page]: the text of its first [<h3>]
    ([get_text(" ", strip=True)]), its tables in document order, and its
    first [<img>] ([None] if there is none) with its [src] attribute. *)
Record page := {
  pg_h3 : option ustr;
  pg_tables : list table;
  pg_img : option (option ustr)
}.

(** [h3 = clean_text(h3_el.get_text(" ", strip=True)) if h3_el else ""] *)
Definition page_h3 (p : page) : ustr :=
  match pg_h3 p with Some t => clean_text t | None => [] end.

(** [str.lower()] on the letters that matter here: no non-ASCII character
    lowers to a string of the ASCII letters of "holder", "tool",
    "extension", "subholder" or "ext", so the comparisons below only see
    the ASCII case mapping. *)
Definition py_lower (s : ustr) : ustr :=
  List.map (fun c => if (65 <=? c) && (c <=? 90) then c + 32 else c) s.

(** [(r.get("coupling_type", "") or "").strip().lower()] *)
Definition row_kind (r : dict) : ustr := py_lower (py_strip (dget r (u "coupling_type"))).

(** [kind in ("extension", "subholder", "ext")] *)
Definition is_ext_kind (k : ustr) : bool :=
  existsb (ueqb k) [u "extension"; u "subholder"; u "ext"].

Fixpoint join (sep : ustr) (l : list ustr) : ustr :=
  match l with
  | [] => []
  | [x] => x
  | x :: t => x ++ sep ++ join sep t
  end.

(** [_build_extensions_str_from_coupling_rows(rows)] *)
Definition _build_extensions_str_from_coupling_rows (rows : list dict) : ustr :=
  let exts := List.flat_map (fun r =>
    if is_ext_kind (row_kind r) then
      let name := py_strip (dget r (u "name")) in
      let ln := py_strip (dget r (u "reach")) in
      if ueqb name [] && ueqb ln [] then []
      else if negb (ueqb ln []) then
        [if negb (ueqb name []) then name ++ u "(L=" ++ ln ++ u ")"
         else u "(L=" ++ ln ++ u ")"]
      else [name]
    else []) rows in
  join (u " / ") (List.filter (fun e => negb (ueqb e [])) exts).

(** The locals of the [for r in rows:] loop of the NC-tool branch. *)
Record scan := {
  sc_cur : NcToolRecord;
  holder_len : option float;
  tool_len : option float;
  ext_sum : float;
  ext_found : bool
}.

(** One iteration of [for r in rows:]. *)
Definition scan_row (sc : scan) (r : dict) : scan :=
  let kind := row_kind r in
  let name := dget r (u "name") in
  let ln_str := dget r (u "reach") in
  let ln := _to_float_mm ln_str in
  if ueqb kind (u "holder") then
    {| sc_cur := set_attr F_holder_length ln_str (set_attr F_holder_name name (sc_cur sc));
       holder_len := ln; tool_len := tool_len sc; ext_sum := ext_sum sc;
       ext_found := ext_found sc |}
  else if ueqb kind (u "tool") then
    {| sc_cur := set_attr F_tool_length ln_str (set_attr F_tool_name name (sc_cur sc));
       holder_len := holder_len sc; tool_len := ln; ext_sum := ext_sum sc;
       ext_found := ext_found sc |}
  else if is_ext_kind kind then
    {| sc_cur := sc_cur sc; holder_len := holder_len sc; tool_len := tool_len sc;
       ext_sum := match ln with Some x => fadd (ext_sum sc) x | None => ext_sum sc end;
       ext_found := true |}
  else sc.

(** The [if coupling_table:] block of the NC-tool branch, from
    [rows = _parse_grid_table(coupling_table)] on. *)
Definition coupling_block (c : NcToolRecord) (rows : list dict) : res NcToolRecord :=
  let sc := fold_left scan_row rows
    {| sc_cur := c; holder_len := None; tool_len := None;
       ext_sum := S754_zero false; ext_found := false |} in
  let c := set_attr F_extensions_str (_build_extensions_str_from_coupling_rows rows) (sc_cur sc) in
  e ← (if ext_found sc then _fmt_mm (Some (ext_sum sc)) else Ok (u "0"));
  let c := set_attr F_ext_overhang_mm e c in
  t ← (match tool_len sc with Some _ => _fmt_mm (tool_len sc) | None => Ok [] end);
  let c := set_attr F_tool_overhang_mm t c in
  let overhang := match tool_len sc with Some tl => Some (fadd (ext_sum sc) tl) | None => None end in
  o ← (match overhang with Some _ => _fmt_mm overhang | None => Ok [] end);
  Ok (set_attr F_overhang_mm o c).

(** [t.get("border") == "1"] *)
Definition bordered (t : table) : bool := bool_decide (tbl_border t = Some (u "1")).

(** The NC-tool branch: the record opened by the page [p] whose heading
    matched with [m]. *)
Definition nctool_page (path : ustr) (p : page) (m : caps) : res NcToolRecord :=
  let c := new_record path in
  let c := set_attr F_nctool_name (clean_text (group 1 m)) c in
  let c := set_no (digits_value (group 2 m)) c in
  let nct_tables := pg_tables p in
  let c :=
    match nct_tables with
    | _ :: t1 :: _ => set_attr F_nctool_comment (dget (_parse_kv_table t1) (u "nctool_comment")) c
    | _ => add_warning (u "NCツールページのtableが不足しています") c
    end in
  c ← match List.find bordered nct_tables with
      | Some t => coupling_block c (_parse_grid_table t)
      | None => Ok (add_warning (u "NCツールページの構成部品テーブル（border=1）が見つかりません") c)
      end;
  Ok (match pg_img p with
      | Some (Some src) =>
          if negb (ueqb src []) then set_attr F_image_rel_src src c
          else add_warning (u "NCツールページの画像srcが見つかりません") c
      | _ => add_warning (u "NCツールページの画像srcが見つかりません") c
      end).
(* ------------------------------------------------------------------ *)
(** ** The pages attached to an open record *)

(** The tool branch, on the open record [c]. *)
Definition tool_page (c : NcToolRecord) (p : page) (m : caps) : NcToolRecord :=
  let c := set_attr F_tool_page_name (clean_text (group 1 m)) c in
  let c := set_attr F_tool_type (clean_text (group 2 m)) c in
  let tool_tables := pg_tables p in
  let c :=
    match tool_tables with
    | t0 :: _ =>
        let kv := _parse_kv_table t0 in
        let c := set_attr F_tool_diameter_mm (dget kv (u "diameter")) c in
        let c := set_attr F_tool_corner_radius_mm (dget kv (u "corner_radius")) c in
        let c := set_attr F_tool_flutes (dget kv (u "cutting_edges")) c in
        let c := set_attr F_tool_cut_length_ap_mm (dget kv (u "cutting_length")) c in
        let c := set_attr F_tool_shank_d_mm (dget kv (u "shank_diameter")) c in
        let c := set_attr F_tool_chamfer_len_mm (dget kv (u "chamfer_length")) c in
        let c := set_attr F_tool_tip_len_mm (dget kv (u "tip_length")) c in
        let c := set_attr F_tool_taper_angle_deg (dget kv (u "cone_angle")) c in
        set_attr F_spindle_rotation (dget kv (u "spindle_orientation")) c
    | [] => add_warning (u "工具ページの寸法tableが見つかりません") c
    end in
  match List.find bordered (List.tail tool_tables) with
  | Some cond_table =>
      match _parse_grid_table cond_table with
      | c0 :: _ =>
          let c := set_attr F_cond_S_n (dget c0 (u "S (n)")) c in
          let c := set_attr F_cond_FX (dget c0 (u "FX")) c in
          let c := set_attr F_cond_FZ (dget c0 (u "FZ")) c in
          let c := set_attr F_cond_Fr (dget c0 (u "Fr")) c in
          let c := set_attr F_cond_ap (dget c0 (u "ap")) c in
          set_attr F_cond_ae (dget c0 (u "ae")) c
      | [] => c
      end
  | None => add_warning (u "工具ページの条件テーブル（border=1）が見つかりません") c
  end.

(** The holder branch, on the open record [c]. *)
Definition holder_page (c : NcToolRecord) (p : page) (m : caps) : NcToolRecord :=
  let c := set_attr F_holder_page_name (clean_text (group 1 m)) c in
  match pg_tables p with
  | t0 :: _ => set_attr F_holder_comment (dget (_parse_kv_table t0) (u "holder_comment")) c
  | [] => add_warning (u "ホルダーページのtableが見つかりません") c
  end.

(** The branches after [if current is None: continue], in source order:
    tool, holder, sub-holder (JA), extension (EN), anything else. *)
Definition attach_page (c : NcToolRecord) (p : page) (h3 : ustr) : NcToolRecord :=
  match _match_any [_RE_TOOL_H3_JA; _RE_TOOL_H3_EN] h3 with
  | Some m => tool_page c p m
  | None =>
  match _match_any [_RE_HOLDER_H3_JA; _RE_HOLDER_H3_EN] h3 with
  | Some m => holder_page c p m
  | None =>
  match rx_search _RE_SUBHOLDER_H3_JA h3 with
  | Some m => add_warning (u "サブホルダーページ検出: " ++ clean_text (group 1 m)) c
  | None =>
  match rx_search _RE_EXTENSION_H3_EN h3 with
  | Some m => add_warning (u "Extension page detected: " ++ clean_text (group 1 m)) c
  | None => c
  end end end end.

(* ------------------------------------------------------------------ *)
(** ** parse_nctools_html *)

(** The locals of [parse_nctools_html] that the loop threads. *)
Record pstate := {
  records : list NcToolRecord;
  current : option NcToolRecord;
  errors : list ustr
}.

Definition UNKNOWN_NCTOOL : ustr := u "(UNKNOWN_NCTOOL)".
Definition empty_name_warning : ustr := u "nctool_name が空でした（解析失敗の可能性）".
Definition no_page_message : ustr := u "div.page が見つかりません。HTML形式が想定と違います。".

(** [finalize_current()] *)
Definition finalize_current (st : pstate) : pstate :=
  match current st with
  | None => st
  | Some c =>
      let c :=
        if ueqb (py_strip (nctool_name c)) []
        then add_warning empty_name_warning (set_attr F_nctool_name UNKNOWN_NCTOOL c)
        else c in
      {| records := records st ++ [c]; current := None; errors := errors st |}
  end.

(** The NC-tool heading test [_match_any([_RE_NCTOOL_H3_JA, _RE_NCTOOL_H3_EN], h3)]. *)
Definition nctool_match (p : page) : option caps :=
  _match_any [_RE_NCTOOL_H3_JA; _RE_NCTOOL_H3_EN] (page_h3 p).

(** One iteration of [for page_idx, p in enumerate(pages, start=1):]. *)
Definition step (path : ustr) (st : pstate) (p : page) : res pstate :=
  match nctool_match p with
  | Some m =>
      let st := finalize_current st in
      c ← nctool_page path p m;
      Ok {| records := records st; current := Some c; errors := errors st |}
  | None =>
      match current st with
      | None => Ok st
      | Some c =>
          Ok {| records := records st; current := Some (attach_page c p (page_h3 p));
                errors := errors st |}
      end
  end.

Fixpoint run (path : ustr) (pages : list page) (st : pstate) : res pstate :=
  match pages with
  | [] => Ok st
  | p :: ps => st' ← step path st p; run path ps st'
  end.

Definition init_state : pstate := {| records := []; current := None; errors := [] |}.

(** [parse_nctools_html(html_path)], from [pages = soup.select("div.page")]
    on; [path] is [str(html_path)].  Reading the file and building the
    DOM are outside the model. *)
Definition parse_nctools_html (path : ustr) (pages : list page)
    : res (list NcToolRecord * list ustr) :=
  match pages with
  | [] => Err (RuntimeError no_page_message)
  | _ =>
      st ← run path pages init_state;
      let st := finalize_current st in
      Ok (records st, errors st)
  end.

(* ------------------------------------------------------------------ *)
(** ** util.sanitize_filename *)

(** [invalid]: the characters less-than, greater-than, colon, double
    quote, slash, backslash, bar, question mark and asterisk, by code
    point. *)
Definition invalid_filename_chars : ustr := [60; 62; 58; 34; 47; 92; 124; 63; 42].

(** [s.replace(ch, "_")] for a one-character [ch] *)
Definition replace_char (ch : N) (s : ustr) : ustr :=
  List.map (fun c => if c =? ch then 95 else c) s.

Fixpoint lstrip_chars (chars s : ustr) : ustr :=
  match s with
  | c :: t => if existsb (N.eqb c) chars then lstrip_chars chars t else s
  | [] => []
  end.

(** [s.rstrip(chars)] *)
Definition rstrip_chars (chars s : ustr) : ustr := rev (lstrip_chars chars (rev s)).

(** [sanitize_filename(name)] *)
Definition sanitize_filename (name : ustr) : ustr :=
  let out := fold_left (fun out ch => replace_char ch out) invalid_filename_chars name in
  let out := py_strip (rstrip_chars [46; 32] out) in
  if ueqb out [] then u "output" else out.

(* ------------------------------------------------------------------ *)
(** ** core: the rows of the [errors] sheet *)

(** One entry of [errors_for_sheet]: (row index, nctool_name, message). *)
Abbreviation sheet_entry := (Z * ustr * ustr)%type.

Section ErrorsSheet.

(** [resolve_image_path(html_path, src)] for the document being exported:
    the path of an existing file, if any. *)
Variable resolve_image_path : ustr -> option ustr.
(** The error message that [make_temp_resized_png(abs_img, key_name=key,
    ...)] returns for the image file [abs_img] of the record [rec] (the key
    is built from [rec]), if any. *)
Variable resize_error : NcToolRecord -> ustr -> option ustr.

(** The entries the loop [for i, rec in enumerate(records, start=...)]
    appends for the record [rec] at row [i]. *)
Definition record_sheet_entries (embed_images : bool) (i : Z) (rec : NcToolRecord)
    : list sheet_entry :=
  let name := nctool_name rec in
  (if embed_images then
     match resolve_image_path (attr rec F_image_rel_src) with
     | None => [(i, name, u "画像が見つかりません: " ++ attr rec F_image_rel_src)]
     | Some abs_img =>
         match resize_error rec abs_img with Some err => [(i, name, err)] | None => [] end
     end
   else []) ++ List.map (fun w => (i, name, w)) (warnings rec).

Fixpoint records_sheet_entries (embed_images : bool) (i : Z) (recs : list NcToolRecord)
    : list sheet_entry :=
  match recs with
  | [] => []
  | r :: rs => record_sheet_entries embed_images i r ++ records_sheet_entries embed_images (i + 1) rs
  end.

(** [errors_for_sheet] of [export_from_html] ([start] = 2) and of
    [export_report_f2_from_html] ([start] = 1), before it is written. *)
Definition errors_for_sheet (start : Z) (embed_images : bool) (recs : list NcToolRecord)
    (parse_errors : list ustr) : list sheet_entry :=
  records_sheet_entries embed_images start recs ++ List.map (fun e => (0%Z, [], e)) parse_errors.

(** From [records, parse_errors = parse_nctools_html(html_path)] to
    [errors_for_sheet]. *)
Definition export_errors (path : ustr) (pages : list page) (start : Z) (embed_images : bool)
    : res (list sheet_entry) :=
  rp ← parse_nctools_html path pages;
  Ok (errors_for_sheet start embed_images (fst rp) (snd rp)).

End ErrorsSheet.

(* ------------------------------------------------------------------ *)
(** ** export_xlsx_blocks.export_blocks_f2_xlsx: the cell values *)

(** A cell value: [None], an int, or a str. *)
Inductive cell := CNone | CInt (z : Z) | CStr (s : ustr).

(** [a or b] on two str *)
Definition or_str (a b : ustr) : ustr := if ueqb a [] then b else a.

(** The header row [headers]. *)
Definition f2_headers : list ustr :=
  [u "No"; u "NCツール名"; u "呼径"; u "識別"; u "補正H"; u "補正D";
   u "画像"; u "種別"; u "名称"; u "詳細"; u "追記"].

(** The cell values the loop body writes for one record, as
    ((row, column), value), in the order of the assignments; [written]
    is the number of records written before. [_safe_str] is the identity
    on the str attributes. *)
Definition block_writes (start_row block_rows written : Z) (rec : NcToolRecord)
    : list ((Z * Z) * cell) :=
  let r1 := (start_row + written * block_rows)%Z in
  let r2 := (r1 + 1)%Z in
  let r3 := (r1 + 2)%Z in
  let sep := u " / " in
  [((r1, 1%Z), match nctool_no rec with Some n => CInt n | None => CNone end);
   ((r1, 2%Z), CStr (nctool_name rec));
   ((r1, 3%Z), CStr []); ((r1, 4%Z), CStr []); ((r1, 5%Z), CStr []); ((r1, 6%Z), CStr []);
   ((r1, 11%Z), CStr []);
   ((r1, 8%Z), CStr (u "holder"));
   ((r1, 9%Z), CStr (or_str (attr rec F_holder_name) (attr rec F_holder_page_name)));
   ((r1, 10%Z), CStr (u "直径: " ++ attr rec F_tool_diameter_mm ++ sep ++
                    u "刃数: " ++ attr rec F_tool_flutes ++ sep ++
                    u "R: " ++ attr rec F_tool_corner_radius_mm ++ [10] ++
                    u "シャンク: " ++ attr rec F_tool_shank_d_mm ++ [10] ++
                    u "テーパー角: " ++ attr rec F_tool_taper_angle_deg ++ sep ++
                    u "回転: " ++ attr rec F_spindle_rotation));
   ((r2, 8%Z), CStr (u "extension"));
   ((r2, 9%Z), CStr (attr rec F_extensions_str));
   ((r2, 10%Z), CStr (u "extension突き出し: " ++ ext_overhang_mm rec ++ sep ++
                    u "工具突き出し: " ++ tool_overhang_mm rec));
   ((r3, 8%Z), CStr (u "tool"));
   ((r3, 9%Z), CStr (or_str (attr rec F_tool_page_name) (attr rec F_tool_name)));
   ((r3, 10%Z), CStr (u "突き出し長さ: " ++ overhang_mm rec))].

Fixpoint f2_record_writes (start_row block_rows written : Z) (recs : list NcToolRecord)
    : list ((Z * Z) * cell) :=
  match recs with
  | [] => []
  | r :: rs => block_writes start_row block_rows written r ++
               f2_record_writes start_row block_rows (written + 1) rs
  end.

(** All the cell values [export_blocks_f2_xlsx] writes, header first. *)
Definition f2_writes (start_row block_rows : Z) (recs : list NcToolRecord)
    : list ((Z * Z) * cell) :=
  imap (fun i h => ((1%Z, Z.of_nat i + 1)%Z, CStr h)) f2_headers ++
  f2_record_writes start_row block_rows 0 recs.

(* ------------------------------------------------------------------ *)
(** ** Sample documents *)

(** A table with [border="1"] and the header of a component table. *)
Definition coupling_table (rows : list (list ustr)) : table :=
  {| tbl_border := Some (u "1"); tbl_rows := [u "Coupling type"; u "Name"; u "Reach"] :: rows |}.
(** A table without [border]. *)
Definition plain_table (rows : list (list ustr)) : table := {| tbl_border := None; tbl_rows := rows |}.
(** An NC-tool page as the exporter writes it: two tables before the
    component table, the second one holding the NC-tool comment. *)
Definition nct_page (h3 : string) (rows : list (list ustr)) : page :=
  {| pg_h3 := Some (u h3);
     pg_tables := [plain_table []; plain_table [[u "NC-Tool comment"; u "rough"]]; coupling_table rows];
     pg_img := Some (Some (u "img/t1.png")) |}.
(** A tool page before the first NC-tool page, an NC-tool page with its
    tool and extension pages, and an NC-tool page with an empty name. *)
Definition sample_doc : list page :=
  [ {| pg_h3 := Some (u "Tool: EM10 (End mill)"); pg_tables := []; pg_img := None |};
    nct_page "NC-Tool: T1 (7)" [[u "Holder"; u "HSK63"; u "90"]; [u "Extension"; u "EXT_A"; u "10"];
                                [u "Extension"; u "EXT_B"; u "15"]; [u "Tool"; u "EM10"; u "40"]];
    {| pg_h3 := Some (u "Tool:  EM10  (End mill)");
       pg_tables := [plain_table [[u "Diameter"; u "10"; u "Corner radius"; u "0.5"]]]; pg_img := None |};
    {| pg_h3 := Some (u "Extension: EXT_A"); pg_tables := []; pg_img := None |};
    nct_page "NC-Tool:  (8)" [] ].
(** One NC-tool page whose tool row has a reach of 1 followed by 400
    zeros, which [_to_float_mm] reads as infinity. *)
Definition overflow_doc : list page :=
  [nct_page "NC-Tool: T1 (1)" [[u "Tool"; u "EM10"; u "1" ++ repeat 48 400]]].

(** A Japanese sub-holder page without tables. *)
Definition subholder_page : page :=
  {| pg_h3 := Some (u "サブホルダー: SH1"); pg_tables := []; pg_img := None |}.

(* ------------------------------------------------------------------ *)
(** ** Readings of the spec, to compare the code with *)

(** The key/value contributions of one row, as the amended C5 reads them:
    a 2-cell row gives cell 0 (key-normalised) to cell 1 when cell 0 is
    non-empty; a 4-cell row gives each adjacent pair whose key cell is
    non-empty; other rows give nothing. *)
Definition kv_row_pairs (row : list ustr) : list (ustr * ustr) :=
  let pair (k v : ustr) := if ueqb k [] then [] else [(_norm_kv_key k, v)] in
  match List.map clean_text row with
  | [k; v] => pair k v
  | [k0; v0; k2; v2] => pair k0 v0 ++ pair k2 v2
  | _ => []
  end.

Definition kv_contributions (t : table) : list (ustr * ustr) :=
  List.flat_map kv_row_pairs (tbl_rows t).

(** The value of the last contribution with key [k]. *)
Definition last_for (k : ustr) (ps : list (ustr * ustr)) : option ustr :=
  option_map snd (List.find (fun p => ueqb (fst p) k) (rev ps)).

(** The derived dimensions as C2 states them, for the rows [rows] of a
    bordered component table: extension-like rows are those whose kind is
    "extension", "subholder" or "ext"; their parseable reaches are summed
    from [0.0] in row order; the tool length is the parsed reach of the
    (last) tool row. *)
Definition is_ext_row (r : dict) : bool := is_ext_kind (row_kind r).
Definition is_tool_row (r : dict) : bool := ueqb (row_kind r) (u "tool").
Definition reach_of (r : dict) : option float := _to_float_mm (dget r (u "reach")).

Definition spec_ext_reaches (rows : list dict) : list float :=
  omap (fun r => if is_ext_row r then reach_of r else None) rows.

Definition spec_ext_sum (rows : list dict) : float :=
  fold_left fadd (spec_ext_reaches rows) (S754_zero false).

Definition spec_tool_len (rows : list dict) : option float :=
  match List.find is_tool_row (rev rows) with Some r => reach_of r | None => None end.

Definition spec_derived (rows : list dict) : res (ustr * ustr * ustr) :=
  e ← (if existsb is_ext_row rows then _fmt_mm (Some (spec_ext_sum rows)) else Ok (u "0"));
  t ← (match spec_tool_len rows with Some x => _fmt_mm (Some x) | None => Ok [] end);
  o ← (match spec_tool_len rows with
       | Some x => _fmt_mm (Some (fadd (spec_ext_sum rows) x)) | None => Ok [] end);
  Ok (e, t, o).

(** The three derived attributes of a record. *)
Definition derived (c : NcToolRecord) : ustr * ustr * ustr :=
  (ext_overhang_mm c, tool_overhang_mm c, overhang_mm c).

(** A row of a component table with header [Coupling type | Name | Reach]. *)
Definition comp_row (kind name reach : string) : dict :=
  <[u "coupling_type" := u kind]> (<[u "name" := u name]> (<[u "reach" := u reach]> ∅)).

(** The [nctool_no] that the NC-tool heading match [m] gives. *)
Definition nct_no (m : caps) : option Z := Some (digits_value (group 2 m)).

(* ------------------------------------------------------------------ *)
(** ** Auxiliary notions of the proofs *)

(** [s] has no two adjacent whitespace characters and its whitespace is
    the ASCII space. *)
Fixpoint canon (prev_space : bool) (s : ustr) : bool :=
  match s with
  | [] => true
  | c :: t =>
      if is_space c then (c =? 32) && negb prev_space && canon true t
      else canon false t
  end.

(** [s] does not start (end) with whitespace. *)
Definition head_ok (s : ustr) : Prop :=
  match s with c :: _ => is_space c = false | [] => True end.
Definition last_ok (s : ustr) : Prop := head_ok (rev s).

Definition non_space (c : N) : bool := negb (is_space c).

(** A continuation that always succeeds. *)
Definition total_k (k : ustr -> caps -> option caps) : Prop := forall s c, k s c <> None.

(** One [d[k] = v] of [_parse_kv_table]. *)
Definition ins (d : dict) (p : ustr * ustr) : dict := <[fst p := snd p]> d.

(** The records of a state, the open one last. *)
Definition open_list (st : pstate) : list NcToolRecord :=
  match current st with Some c => [c] | None => [] end.
Definition all_records (st : pstate) : list NcToolRecord := records st ++ open_list st.

(** What [finalize_current] does to the open record before appending it. *)
Definition seal (c : NcToolRecord) : NcToolRecord :=
  if ueqb (py_strip (nctool_name c)) []
  then add_warning empty_name_warning (set_attr F_nctool_name UNKNOWN_NCTOOL c)
  else c.

(** The NC-tool pages of a document, with their heading matches. *)
Definition nct_pages (pages : list page) : list (page * caps) :=
  omap (fun p => option_map (pair p) (nctool_match p)) pages.

(** The name a record opened by the heading match [m] ends with. *)
Definition name_of_heading (m : caps) : ustr :=
  let n := clean_text (group 1 m) in
  if ueqb (py_strip n) [] then UNKNOWN_NCTOOL else n.

(** The [src] of the first [<img>] of a page, [""] when there is none. *)
Definition img_src (p : page) : ustr :=
  match pg_img p with Some (Some s) => s | _ => [] end.

(** The attributes the tool and holder branches assign. *)
Definition attach_fields : list sattr :=
  [F_tool_page_name; F_tool_type; F_tool_diameter_mm; F_tool_corner_radius_mm;
   F_tool_flutes; F_tool_cut_length_ap_mm; F_tool_shank_d_mm; F_tool_chamfer_len_mm;
   F_tool_tip_len_mm; F_tool_taper_angle_deg; F_spindle_rotation;
   F_cond_S_n; F_cond_FX; F_cond_FZ; F_cond_Fr; F_cond_ap; F_cond_ae;
   F_holder_page_name; F_holder_comment].

(** The attributes the NC-tool branch assigns. *)
Definition nct_fields : list sattr :=
  [F_nctool_name; F_nctool_comment; F_holder_name; F_holder_length; F_tool_name;
   F_tool_length; F_extensions_str; F_ext_overhang_mm; F_tool_overhang_mm;
   F_overhang_mm; F_image_rel_src].

(** The records of a state as seen through [g], the open one as sealing
    will leave it. *)
Definition sealed_view {A} (g : NcToolRecord -> A) (h : A -> A) (st : pstate) : list A :=
  map g (records st) ++ map (fun c => h (g c)) (open_list st).

(** The row index of a sheet entry. *)
Definition entry_row (e : sheet_entry) : Z := fst (fst e).

(* ================================================================== *)
(** * Properties *)

(** ** clean_text *)

(** [canon b s]: every whitespace character of [s] is a plain space and
    no space follows another (nor a space before [s] when [b]). *)
Lemma ws_sub_canon b s : canon b (ws_sub b s) = true.
Proof.
  revert b; induction s as [|c t IH]; intros b; [reflexivity|].
  simpl. destruct (is_space c) eqn:Hc.
  - destruct b; [apply IH|]. simpl. rewrite IH. reflexivity.
  - simpl. rewrite Hc. apply IH.
Qed.

Lemma ws_sub_id b s : canon b s = true -> ws_sub b s = s.
Proof.
  revert b; induction s as [|c t IH]; intros b H; [reflexivity|].
  simpl in *. destruct (is_space c) eqn:Hc.
  - apply andb_prop in H as [H1 H3]. apply andb_prop in H1 as [H1 H2].
    destruct b; [discriminate|]. apply N.eqb_eq in H1. subst c.
    f_equal. apply IH, H3.
  - f_equal. apply IH, H.
Qed.

Lemma ws_sub_snoc b l c : is_space c = false -> ws_sub b (l ++ [c]) = ws_sub b l ++ [c].
Proof.
  revert b; induction l as [|x t IH]; intros b Hc.
  - simpl. rewrite Hc. reflexivity.
  - simpl. destruct (is_space x); [destruct b|]; simpl; rewrite IH; auto.
Qed.

Lemma drop_ws_head s : head_ok (drop_ws s).
Proof.
  induction s as [|c t IH]; simpl; [exact I|].
  destruct (is_space c) eqn:Hc; [exact IH|exact Hc].
Qed.

Lemma drop_ws_id s : head_ok s -> drop_ws s = s.
Proof. destruct s as [|c t]; simpl; [reflexivity|]. intros ->. reflexivity. Qed.

Lemma drop_ws_split s : exists p, s = p ++ drop_ws s.
Proof.
  induction s as [|c t [p Hp]]; simpl; [exists []; reflexivity|].
  destruct (is_space c).
  - exists (c :: p). simpl. rewrite <- Hp. reflexivity.
  - exists []. reflexivity.
Qed.

Lemma py_strip_last s : last_ok (py_strip s).
Proof. unfold last_ok, py_strip. rewrite rev_involutive. apply drop_ws_head. Qed.

Lemma py_strip_head s : head_ok (py_strip s).
Proof.
  unfold py_strip. pose proof (drop_ws_head s) as Hm.
  remember (drop_ws s) as m eqn:Em. clear Em.
  destruct (drop_ws_split (rev m)) as [p Hp].
  remember (drop_ws (rev m)) as l eqn:El. clear El.
  assert (Hm' : m = rev l ++ rev p).
  { rewrite <- rev_app_distr, <- Hp, rev_involutive. reflexivity. }
  subst m. destruct (rev l) as [|c t]; simpl in *; auto.
Qed.

Lemma py_strip_id s : head_ok s -> last_ok s -> py_strip s = s.
Proof.
  intros Hh Hl. unfold py_strip. rewrite (drop_ws_id s Hh).
  rewrite (drop_ws_id (rev s) Hl). apply rev_involutive.
Qed.

Lemma ws_sub_head b s : head_ok s -> head_ok (ws_sub b s).
Proof. destruct s as [|c t]; simpl; [auto|]. intros H. rewrite H. exact H. Qed.

Lemma ws_sub_last b s : last_ok s -> last_ok (ws_sub b s).
Proof.
  unfold last_ok. destruct (rev s) as [|c t] eqn:E; intros H.
  - apply (f_equal (@rev N)) in E. rewrite rev_involutive in E. subst s. exact I.
  - apply (f_equal (@rev N)) in E. rewrite rev_involutive in E. simpl in E. subst s.
    simpl in H. rewrite ws_sub_snoc by exact H. rewrite rev_app_distr. exact H.
Qed.

Lemma ws_sub_filter b s : List.filter non_space (ws_sub b s) = List.filter non_space s.
Proof.
  unfold non_space. revert b; induction s as [|c t IH]; intros b; [reflexivity|].
  simpl. destruct (is_space c) eqn:Hc; [destruct b|]; simpl; rewrite ?Hc; simpl;
    rewrite ?IH; reflexivity.
Qed.

Lemma drop_ws_filter s : List.filter non_space (drop_ws s) = List.filter non_space s.
Proof.
  unfold non_space. induction s as [|c t IH]; [reflexivity|]. simpl.
  destruct (is_space c) eqn:Hc; simpl; rewrite ?Hc; [exact IH|reflexivity].
Qed.

Lemma py_strip_filter s : List.filter non_space (py_strip s) = List.filter non_space s.
Proof.
  unfold py_strip. rewrite List.filter_rev, drop_ws_filter, <- List.filter_rev, rev_involutive.
  apply drop_ws_filter.
Qed.

(** Claim C9: [clean_text] trims leading and trailing whitespace, leaves
    every remaining whitespace run as one plain space, keeps every other
    character in order, and is idempotent. *)
Theorem clean_text_idempotent (s : ustr) :
  clean_text (clean_text s) = clean_text s /\
  canon false (clean_text s) = true /\
  head_ok (clean_text s) /\ last_ok (clean_text s) /\
  List.filter non_space (clean_text s) = List.filter non_space s.
Proof.
  unfold clean_text.
  assert (Hh : head_ok (ws_sub false (py_strip s))) by apply ws_sub_head, py_strip_head.
  assert (Hl : last_ok (ws_sub false (py_strip s))) by apply ws_sub_last, py_strip_last.
  repeat split; auto.
  - rewrite (py_strip_id _ Hh Hl). apply ws_sub_id, ws_sub_canon.
  - apply ws_sub_canon.
  - rewrite ws_sub_filter. apply py_strip_filter.
Qed.

(** ** _fmt_mm on sample values *)

Example fmt_mm_trailing_zeros : _fmt_mm (_to_float_mm (u "40.1200")) = Ok (u "40.12").
Proof. vm_compute. reflexivity. Qed.
Example fmt_mm_negative_zero : _fmt_mm (_to_float_mm (u "-0.0004")) = Ok (u "-0").
Proof. vm_compute. reflexivity. Qed.
Example fmt_mm_tenth : _fmt_mm (_to_float_mm (u "0.1")) = Ok (u "0.1").
Proof. vm_compute. reflexivity. Qed.
Example fmt_mm_sum : _fmt_mm (option_map (fun x => fadd x x) (_to_float_mm (u "0.15"))) = Ok (u "0.3").
Proof. vm_compute. reflexivity. Qed.
Example fmt_mm_overflow : _fmt_mm (_to_float_mm (u "1" ++ repeat 48 400)) = Err OverflowError.
Proof. vm_compute. reflexivity. Qed.
Example fmt_mm_near_integer : _fmt_mm (_to_float_mm (u "123456.0005")) = Ok (u "123456").
Proof. vm_compute. reflexivity. Qed.


(** ** The regex matcher and _to_float_mm *)

(** A successful match hands a suffix of its input to its continuation. *)
Lemma mt_suffix r : forall s c k x, mt r s c k = Some x ->
  exists s' c', s' `suffix_of` s /\ k s' c' = Some x.
Proof.
  induction r as [|p|a IHa b IHb|g a IHa|a IHa|i a IHa|]; intros s c k x H; cbn [mt] in H.
  - exists s, c. split; [reflexivity|exact H].
  - destruct s as [|y t]; [discriminate|]. destruct (p y); [|discriminate].
    exists t, c. split; [apply suffix_cons_r; reflexivity|exact H].
  - apply IHa in H as (s1 & c1 & Hs1 & H1). apply IHb in H1 as (s2 & c2 & Hs2 & H2).
    exists s2, c2. split; [etrans; eassumption|exact H2].
  - remember (S (length s)) as n eqn:En. clear En. revert s c H.
    induction n as [|n IHn]; intros s c H; simpl in H.
    + exists s, c. split; [reflexivity|exact H].
    + assert (Hmore : forall y, mt a s c (fun s' c' =>
          if (length s' <? length s)%nat then star_loop (mt a) g k n s' c' else None)
          = Some y -> y = x -> exists s' c', s' `suffix_of` s /\ k s' c' = Some x).
      { intros y Hy ->. apply IHa in Hy as (s1 & c1 & Hs1 & H1).
        destruct (length s1 <? length s)%nat; [|discriminate].
        apply IHn in H1 as (s2 & c2 & Hs2 & H2).
        exists s2, c2. split; [etrans; eassumption|exact H2]. }
      destruct g.
      * destruct (mt a s c _) as [y|] eqn:E.
        -- injection H as Hy. subst y. eapply Hmore; reflexivity.
        -- exists s, c. split; [reflexivity|exact H].
      * destruct (k s c) eqn:Ek.
        -- injection H as ->. exists s, c. split; [reflexivity|exact Ek].
        -- eapply Hmore; [exact H|reflexivity].
  - destruct (mt a s c k) eqn:E.
    + injection H as ->. eapply IHa, E.
    + exists s, c. split; [reflexivity|exact H].
  - apply IHa in H as (s1 & c1 & Hs1 & H1). eexists _, _. split; [exact Hs1|exact H1].
  - destruct (at_end s); [|discriminate]. exists s, c. split; [reflexivity|exact H].
Qed.

Lemma mt_seq_eq a b s c k : mt (RSeq a b) s c k = mt a s c (fun s' c' => mt b s' c' k).
Proof. reflexivity. Qed.

Lemma mt_group_eq i a s c k :
  mt (RGroup i a) s c k = mt a s c (fun s' c' => k s' ((i, firstn (length s - length s') s) :: c')).
Proof. reflexivity. Qed.

Lemma mt_pred_eq p y t c k : mt (RPred p) (y :: t) c k = if p y then k t c else None.
Proof. reflexivity. Qed.

Lemma mt_pred_inv p s c k x : mt (RPred p) s c k = Some x ->
  exists y t, s = y :: t /\ p y = true.
Proof.
  destruct s as [|y t]; [discriminate|]. rewrite mt_pred_eq.
  destruct (p y) eqn:Hp; [|discriminate]. intros _. eauto.
Qed.

Lemma mt_opt_total a s c k : total_k k -> mt (ROpt a) s c k <> None.
Proof. intros Hk. cbn [mt]. destruct (mt a s c k); [discriminate|apply Hk]. Qed.

Lemma star_loop_total ma g k n s c : total_k k -> star_loop ma g k n s c <> None.
Proof.
  intros Hk. destruct n as [|n]; simpl; [apply Hk|].
  destruct g; [destruct (ma s c _); [discriminate|apply Hk]|].
  destruct (k s c) eqn:E; [discriminate|]. exfalso. exact (Hk s c E).
Qed.

Lemma num_re_digit s c k x : mt num_re s c k = Some x -> existsb is_digit s = true.
Proof.
  intros H. cbv [num_re rx_seq rx_plus fold_right] in H.
  rewrite mt_group_eq, mt_seq_eq in H.
  apply mt_suffix in H as (s1 & c1 & Hs1 & H1). cbv beta in H1.
  rewrite !mt_seq_eq in H1. apply mt_pred_inv in H1 as (y & t & -> & Hy).
  apply existsb_exists. exists y. split; [|exact Hy].
  apply list_elem_of_In. eapply elem_of_suffix; [|exact Hs1]. left.
Qed.

Lemma mt_opt_eq a s c k :
  mt (ROpt a) s c k = match mt a s c k with Some x => Some x | None => k s c end.
Proof. reflexivity. Qed.

Lemma mt_star_eq g a s c k : mt (RStar g a) s c k = star_loop (mt a) g k (S (length s)) s c.
Proof. reflexivity. Qed.

Lemma num_re_total d t c k : is_digit d = true -> total_k k -> mt num_re (d :: t) c k <> None.
Proof.
  intros Hd Hk. cbv [num_re rx_seq rx_plus fold_right r_dig].
  rewrite mt_group_eq, mt_seq_eq, mt_opt_eq.
  destruct (mt (RPred _) (d :: t) c _); [discriminate|]. cbv beta.
  rewrite !mt_seq_eq, mt_pred_eq, Hd, mt_star_eq.
  apply star_loop_total. intros s1 c1. rewrite mt_seq_eq. apply mt_opt_total.
  intros s2 c2. cbn [mt]. apply Hk.
Qed.

Lemma rx_search_cons r y t :
  rx_search r (y :: t) =
  match mt r (y :: t) [] (fun _ c => Some c) with Some c => Some c | None => rx_search r t end.
Proof. reflexivity. Qed.

Lemma search_num_some s : existsb is_digit s = true -> rx_search num_re s <> None.
Proof.
  induction s as [|y t IH]; [discriminate|]. intros H. rewrite rx_search_cons.
  destruct (mt num_re (y :: t) [] _) eqn:E; [discriminate|].
  simpl in H. destruct (is_digit y) eqn:Hy.
  - exfalso. refine (num_re_total y t [] _ Hy _ E). intros s c. discriminate.
  - apply IH, H.
Qed.

Lemma search_num_digit s x : rx_search num_re s = Some x -> existsb is_digit s = true.
Proof.
  induction s as [|y t IH]; intros H.
  - change (match mt num_re [] [] (fun _ c => Some c) with Some c => Some c | None => None end
      = Some x) in H.
    destruct (mt num_re [] [] _) eqn:E; [|discriminate]. eapply num_re_digit, E.
  - rewrite rx_search_cons in H. destruct (mt num_re (y :: t) [] _) eqn:E.
    + eapply num_re_digit, E.
    + simpl. rewrite (IH H). apply orb_true_r.
Qed.

Lemma space_not_digit c : is_space c = true -> is_digit c = false.
Proof.
  unfold is_space. intros H. apply existsb_exists in H as (z & Hz & Ez).
  apply N.eqb_eq in Ez. subst z.
  assert (Hall : forallb (fun z => negb (is_digit z)) space_table = true) by reflexivity.
  rewrite forallb_forall in Hall. apply Hall in Hz. destruct (is_digit c); [discriminate|reflexivity].
Qed.

Lemma trans_digit c : is_digit (trans c) = is_digit c.
Proof.
  unfold trans. destruct (List.find _ trans_table) as [[a d]|] eqn:E; [|reflexivity].
  apply find_some in E as [Hin Ea]. simpl in Ea. apply N.eqb_eq in Ea. subst a.
  assert (Hall : forallb (fun p => Bool.eqb (is_digit (snd p)) (is_digit (fst p))) trans_table = true)
    by reflexivity.
  rewrite forallb_forall in Hall. apply Hall in Hin. simpl in Hin.
  apply Bool.eqb_prop in Hin. exact Hin.
Qed.

Lemma existsb_digit_non_space l :
  existsb is_digit (List.filter non_space l) = existsb is_digit l.
Proof.
  induction l as [|c t IH]; [reflexivity|]. simpl. unfold non_space at 1.
  destruct (is_space c) eqn:Hc; simpl.
  - rewrite (space_not_digit c Hc). exact IH.
  - rewrite IH. reflexivity.
Qed.

Lemma existsb_digit_clean s : existsb is_digit (clean_text s) = existsb is_digit s.
Proof.
  rewrite <- (existsb_digit_non_space (clean_text s)), <- (existsb_digit_non_space s).
  unfold clean_text. rewrite ws_sub_filter, py_strip_filter. reflexivity.
Qed.

Lemma existsb_digit_prepared s :
  existsb is_digit (List.filter (fun c => negb (c =? 44)) (List.map trans (clean_text s)))
  = existsb is_digit s.
Proof.
  rewrite <- (existsb_digit_clean s). generalize (clean_text s) as l.
  induction l as [|c t IH]; [reflexivity|]. simpl.
  destruct (trans c =? 44) eqn:E; simpl.
  - apply N.eqb_eq in E. rewrite <- trans_digit, E, IH. reflexivity.
  - rewrite trans_digit, IH. reflexivity.
Qed.

(** Claim C3: [_to_float_mm] returns [None] exactly when its argument is
    empty or has no decimal digit (a full-width digit counts: it is mapped
    to an ASCII one); it reads "１３０．５ mm" as 130.5 (= 261 * 2^-1) and
    "130,000" as 130000. *)
Theorem to_float_mm_none_iff (s : ustr) :
  (_to_float_mm s = None <-> s = [] \/ existsb is_digit s = false) /\
  _to_float_mm (u "１３０．５ mm") = Some (fin 261 (-1)) /\
  _to_float_mm (u "130,000") = Some (fin 130000 0).
Proof.
  split; [|split; vm_compute; reflexivity].
  destruct s as [|c0 t0]; [split; auto|].
  unfold _to_float_mm. rewrite <- (existsb_digit_prepared (c0 :: t0)).
  destruct (rx_search num_re _) as [m|] eqn:E.
  - apply search_num_digit in E. rewrite E. split; [discriminate|].
    intros [H|H]; discriminate.
  - split; [|reflexivity]. intros _. right.
    destruct (existsb is_digit _) eqn:Ed; [|reflexivity].
    exfalso. exact (search_num_some _ Ed E).
Qed.

(** ** _parse_kv_table *)

Lemma kv_row_ins d row : kv_row d row = fold_left ins (kv_row_pairs row) d.
Proof.
  unfold kv_row, kv_row_pairs.
  destruct (List.map clean_text row) as [|k0 [|v0 [|k2 [|v2 [|? ?]]]]];
    cbv zeta; [reflexivity|reflexivity| |reflexivity| |reflexivity].
  - destruct (ueqb k0 []); cbn [fold_left]; unfold ins; cbn [fst snd]; reflexivity.
  - rewrite fold_left_app.
    destruct (ueqb k0 []), (ueqb k2 []); cbn [fold_left app]; unfold ins; cbn [fst snd]; reflexivity.
Qed.

Lemma fold_ins_lookup ps d k :
  fold_left ins ps d !! k = match last_for k ps with Some v => Some v | None => d !! k end.
Proof.
  induction ps as [|p ps IH] using rev_ind; [reflexivity|].
  rewrite fold_left_app. simpl. unfold ins at 1. rewrite lookup_insert.
  unfold last_for. rewrite rev_app_distr. simpl. unfold ueqb.
  destruct (decide (fst p = k)) as [E|E].
  - rewrite bool_decide_true by exact E. reflexivity.
  - rewrite bool_decide_false by exact E. exact IH.
Qed.

Lemma parse_kv_table_fold t : _parse_kv_table t = fold_left ins (kv_contributions t) ∅.
Proof.
  unfold _parse_kv_table, kv_contributions. generalize (∅ : dict) as d.
  induction (tbl_rows t) as [|row rows IH]; intros d; [reflexivity|].
  simpl. rewrite fold_left_app, <- kv_row_ins. apply IH.
Qed.

(** Claim C5 (amended): [_parse_kv_table] maps a key to the value of the
    last contribution with that key, where a 2-cell row contributes
    cell 0 (key-normalised) to cell 1 only if cell 0 is non-empty, a 4-cell
    row contributes each of its two adjacent pairs whose key cell is
    non-empty, and other rows contribute nothing. *)
Theorem parse_kv_table_lookup (t : table) (k : ustr) :
  _parse_kv_table t !! k = last_for k (kv_contributions t).
Proof.
  rewrite parse_kv_table_fold, fold_ins_lookup, lookup_empty.
  destruct (last_for k _); reflexivity.
Qed.

(** Claim C5, as stated, fails: a 2-cell row whose first cell is empty
    contributes nothing. *)
Lemma parse_kv_table_empty_key :
  _parse_kv_table {| tbl_border := None; tbl_rows := [[[]; u "x"]] |} !! _norm_kv_key []
  <> Some (u "x").
Proof. vm_compute. discriminate. Qed.

(* ------------------------------------------------------------------ *)
(** ** The derived dimensions of an NC-tool page *)

Lemma find_app {A} (f : A -> bool) l1 l2 :
  List.find f (l1 ++ l2) = match List.find f l1 with Some x => Some x | None => List.find f l2 end.
Proof.
  induction l1 as [|x l1 IH]; simpl; [reflexivity|]. destruct (f x); [reflexivity|exact IH].
Qed.

Lemma holder_kind_not_tool : ueqb (u "holder") (u "tool") = false.
Proof. vm_compute. reflexivity. Qed.
Lemma holder_kind_not_ext : is_ext_kind (u "holder") = false.
Proof. vm_compute. reflexivity. Qed.
Lemma tool_kind_not_ext : is_ext_kind (u "tool") = false.
Proof. vm_compute. reflexivity. Qed.

(** What the loop [for r in rows:] leaves in its locals. *)
Lemma scan_fold rows : forall sc,
  let sc' := fold_left scan_row rows sc in
  ext_found sc' = (ext_found sc || existsb is_ext_row rows) /\
  ext_sum sc' = fold_left fadd (spec_ext_reaches rows) (ext_sum sc) /\
  tool_len sc' = match List.find is_tool_row (rev rows) with
                 | Some r => reach_of r | None => tool_len sc end.
Proof.
  induction rows as [|r rows IH]; intros sc; simpl.
  { rewrite orb_false_r. auto. }
  destruct (IH (scan_row sc r)) as (E1 & E2 & E3). cbv zeta in E1, E2, E3.
  rewrite E1, E2, E3, find_app. clear E1 E2 E3 IH.
  unfold scan_row, spec_ext_reaches, is_ext_row, is_tool_row, reach_of. simpl.
  destruct (ueqb (row_kind r) (u "holder")) eqn:Eh.
  { apply bool_decide_eq_true in Eh. rewrite Eh, holder_kind_not_tool, holder_kind_not_ext.
    simpl. rewrite ?orb_false_l.
    split; [reflexivity|split; [reflexivity|]]. destruct (List.find _ (rev rows)); reflexivity. }
  destruct (ueqb (row_kind r) (u "tool")) eqn:Et.
  { apply bool_decide_eq_true in Et. rewrite Et, tool_kind_not_ext. simpl.
    rewrite ?orb_false_l.
    split; [reflexivity|split; [reflexivity|]]. destruct (List.find _ (rev rows)); reflexivity. }
  destruct (is_ext_kind (row_kind r)) eqn:Ee; simpl; rewrite ?orb_true_r, ?orb_false_l;
    (split; [reflexivity|split; [|destruct (List.find _ (rev rows)); reflexivity]]).
  - destruct (_to_float_mm _); reflexivity.
  - reflexivity.
Qed.

Lemma derived_set c e t o :
  derived (set_attr F_overhang_mm o (set_attr F_tool_overhang_mm t (set_attr F_ext_overhang_mm e c)))
  = (e, t, o).
Proof. reflexivity. Qed.

(** Claim C2: after the scan of the rows of a bordered component table,
    extension-overhang is the formatted sum of the parseable reaches of the
    extension-like rows if there is one such row, else "0"; tool-overhang is
    the formatted reach of the tool row if it parses, else ""; the total
    overhang is the formatted (extension sum + tool reach) if the tool reach
    parses, else "".  One extension row of reach 25 and no tool row give
    ("25", "", ""); extension rows of 10 and 15 and a tool row of 40 give a
    total overhang of "65". *)
Theorem coupling_block_derived (c : NcToolRecord) (rows : list dict) :
  (c' ← coupling_block c rows; Ok (derived c')) = spec_derived rows /\
  (c' ← coupling_block c [comp_row "Extension" "EXT_A" "25"]; Ok (derived c'))
    = Ok (u "25", [], []) /\
  (c' ← coupling_block c [comp_row "Extension" "EXT_A" "10"; comp_row "Extension" "EXT_B" "15";
                          comp_row "Tool" "EM10" "40"]; Ok (derived c'))
    = Ok (u "25", u "40", u "65").
Proof.
  split; [|split; vm_compute; reflexivity].
  unfold coupling_block, spec_derived, spec_tool_len, spec_ext_sum.
  destruct (scan_fold rows {| sc_cur := c; holder_len := None; tool_len := None;
                              ext_sum := S754_zero false; ext_found := false |}) as (E1 & E2 & E3).
  cbv zeta in *. simpl in E1, E2, E3. rewrite E1, E2, E3.
  destruct (List.find is_tool_row (rev rows)) as [r|]; [destruct (reach_of r) as [x|]|];
    destruct (existsb is_ext_row rows); cbn [mbind res_bind];
    repeat (match goal with |- context [_fmt_mm ?a] => destruct (_fmt_mm a) end;
            cbn [mbind res_bind]);
    rewrite ?derived_set; reflexivity.
Qed.

(* ------------------------------------------------------------------ *)
(** ** The state machine of parse_nctools_html *)

Lemma run_app path l1 l2 st :
  run path (l1 ++ l2) st = (st' ← run path l1 st; run path l2 st').
Proof.
  revert st. induction l1 as [|p l1 IH]; intros st; simpl; [reflexivity|].
  destruct (step path st p); simpl; [apply IH|reflexivity].
Qed.

Lemma scan_fold_no rows sc :
  nctool_no (sc_cur (fold_left scan_row rows sc)) = nctool_no (sc_cur sc).
Proof.
  revert sc. induction rows as [|r rows IH]; intros sc; simpl; [reflexivity|].
  rewrite IH. unfold scan_row. cbv zeta.
  destruct (ueqb _ _); [reflexivity|]. destruct (ueqb _ _); [reflexivity|].
  destruct (is_ext_kind _); reflexivity.
Qed.

Lemma coupling_block_no c rows c' :
  coupling_block c rows = Ok c' -> nctool_no c' = nctool_no c.
Proof.
  unfold coupling_block. cbv zeta. intros H.
  destruct (ext_found _); destruct (tool_len _);
    repeat (match type of H with context [_fmt_mm ?a] => destruct (_fmt_mm a) end;
            cbn [mbind res_bind] in H);
    cbn [mbind res_bind] in H; try discriminate;
    injection H as <-; simpl; apply scan_fold_no.
Qed.

Lemma nctool_page_no path p m c :
  nctool_page path p m = Ok c -> nctool_no c = nct_no m.
Proof.
  unfold nctool_page. cbv zeta. intros H.
  destruct (List.find bordered (pg_tables p)) as [t|]; cbn [mbind res_bind] in H.
  - destruct (coupling_block _ _) as [c1|] eqn:Ec; [|discriminate].
    cbn [mbind res_bind] in H. injection H as <-.
    apply coupling_block_no in Ec.
    destruct (pg_img p) as [[src|]|]; [destruct (ueqb src [])|..]; simpl;
      rewrite Ec; destruct (pg_tables p) as [|? [|? ?]]; reflexivity.
  - injection H as <-.
    destruct (pg_img p) as [[src|]|]; [destruct (ueqb src [])|..];
      destruct (pg_tables p) as [|? [|? ?]]; reflexivity.
Qed.

Lemma attach_page_no c p h3 : nctool_no (attach_page c p h3) = nctool_no c.
Proof.
  unfold attach_page, tool_page, holder_page.
  repeat case_match; reflexivity.
Qed.

Lemma finalize_current_none st : current (finalize_current st) = None.
Proof. unfold finalize_current. destruct (current st) eqn:E; [reflexivity|exact E]. Qed.

Lemma finalize_errors st : errors (finalize_current st) = errors st.
Proof. unfold finalize_current. destruct (current st); reflexivity. Qed.

Lemma finalize_prefix st : records st `prefix_of` records (finalize_current st).
Proof.
  unfold finalize_current. destruct (current st); simpl; [|reflexivity].
  apply prefix_app_r. reflexivity.
Qed.

Lemma finalize_nos st :
  map nctool_no (all_records (finalize_current st)) = map nctool_no (all_records st).
Proof.
  unfold all_records, open_list, finalize_current.
  destruct (current st) as [c|] eqn:E; simpl; [|rewrite E; reflexivity].
  rewrite !app_nil_r, !map_app. destruct (ueqb _ _); reflexivity.
Qed.

Lemma step_inv path st p st' :
  step path st p = Ok st' ->
  map nctool_no (all_records st') =
    map nctool_no (all_records st) ++ map nct_no (option_list (nctool_match p)) /\
  records st `prefix_of` records st' /\
  errors st' = errors st.
Proof.
  unfold step. destruct (nctool_match p) as [m|]; simpl.
  - destruct (nctool_page path p m) as [c|] eqn:E; simpl; [|discriminate].
    intros H; injection H as <-.
    split; [|split; [apply finalize_prefix|apply finalize_errors]].
    rewrite <- (finalize_nos st). unfold all_records, open_list. cbn [current records].
    rewrite finalize_current_none, !map_app, app_nil_r.
    apply nctool_page_no in E. simpl. rewrite E. reflexivity.
  - rewrite app_nil_r. destruct (current st) as [c|] eqn:Ec.
    + intros H; injection H as <-. split; [|split; reflexivity].
      unfold all_records, open_list. simpl. rewrite Ec, !map_app. simpl.
      rewrite attach_page_no. reflexivity.
    + intros H; injection H as <-. split; [reflexivity|split; reflexivity].
Qed.

Lemma run_inv path ps : forall st st',
  run path ps st = Ok st' ->
  map nctool_no (all_records st') =
    map nctool_no (all_records st) ++ map nct_no (omap nctool_match ps) /\
  records st `prefix_of` records st' /\
  errors st' = errors st.
Proof.
  induction ps as [|p ps IH]; intros st st' H; simpl in H.
  - injection H as <-. rewrite app_nil_r. split; [reflexivity|split; reflexivity].
  - destruct (step path st p) as [st1|] eqn:E; simpl in H; [|discriminate].
    destruct (step_inv _ _ _ _ E) as (N1 & P1 & E1).
    destruct (IH _ _ H) as (N2 & P2 & E2).
    split; [|split; [etrans; eassumption|congruence]].
    rewrite N2, N1, <- app_assoc. f_equal.
    simpl. destruct (nctool_match p); reflexivity.
Qed.

Lemma parse_ok_inv path pages recs errs :
  parse_nctools_html path pages = Ok (recs, errs) ->
  exists st, run path pages init_state = Ok st /\
    recs = records (finalize_current st) /\ errs = errors (finalize_current st).
Proof.
  unfold parse_nctools_html. destruct pages as [|p ps]; [discriminate|].
  destruct (run path (p :: ps) init_state) as [st|]; simpl; [|discriminate].
  intros H; injection H as <- <-. exists st. auto.
Qed.

Lemma records_finalized st : records (finalize_current st) = all_records (finalize_current st).
Proof. unfold all_records, open_list. rewrite finalize_current_none, app_nil_r. reflexivity. Qed.

(** Claim C1: on a parse that completes, the output holds exactly one
    record per NC-tool (Assembly) page, in the order of those pages (each
    record carries the number of the heading of its page); a record is
    sealed, i.e. appended to the output list, when the next NC-tool page is
    met, and once sealed it stays unchanged at its place: the records sealed
    after any prefix of the pages are a prefix of the output. *)
Theorem parse_one_record_per_nctool_page (path : ustr) (pages : list page)
    (recs : list NcToolRecord) (errs : list ustr) :
  parse_nctools_html path pages = Ok (recs, errs) ->
  map nctool_no recs = map nct_no (omap nctool_match pages) /\
  length recs = length (omap nctool_match pages) /\
  (forall k st, run path (take k pages) init_state = Ok st -> records st `prefix_of` recs) /\
  (forall st p m st', nctool_match p = Some m -> step path st p = Ok st' ->
     records st' = records (finalize_current st)).
Proof.
  intros H. destruct (parse_ok_inv _ _ _ _ H) as (st & Hrun & -> & _).
  destruct (run_inv _ _ _ _ Hrun) as (N & _ & _).
  assert (Hno : map nctool_no (records (finalize_current st)) = map nct_no (omap nctool_match pages)).
  { rewrite records_finalized, finalize_nos, N. reflexivity. }
  split; [exact Hno|split; [|split]].
  - rewrite <- (length_map nctool_no), Hno, length_map. reflexivity.
  - intros k st1 Hk. rewrite <- (take_drop k pages), run_app, Hk in Hrun. simpl in Hrun.
    destruct (run_inv _ _ _ _ Hrun) as (_ & P & _).
    etrans; [exact P|apply finalize_prefix].
  - intros st0 p m st' Hm. unfold step. rewrite Hm.
    destruct (nctool_page path p m); simpl; [|discriminate].
    intros E; injection E as <-. reflexivity.
Qed.

(** Claim C10: when the parse completes, its second component, the
    document-level warning list, is empty. *)
Theorem parse_no_document_warnings (path : ustr) (pages : list page)
    (recs : list NcToolRecord) (errs : list ustr) :
  parse_nctools_html path pages = Ok (recs, errs) -> errs = [].
Proof.
  intros H. destruct (parse_ok_inv _ _ _ _ H) as (st & Hrun & _ & ->).
  destruct (run_inv _ _ _ _ Hrun) as (_ & _ & E).
  rewrite finalize_errors, E. reflexivity.
Qed.

Lemma unknown_nonblank : py_strip UNKNOWN_NCTOOL <> [].
Proof. vm_compute. discriminate. Qed.

Lemma finalize_names st :
  Forall (fun r => py_strip (nctool_name r) <> []) (records st) ->
  Forall (fun r => py_strip (nctool_name r) <> []) (records (finalize_current st)).
Proof.
  intros H. unfold finalize_current. destruct (current st) as [c|]; [|exact H].
  simpl. apply Forall_app; split; [exact H|]. apply Forall_singleton.
  destruct (ueqb (py_strip (nctool_name c)) []) eqn:E.
  - exact unknown_nonblank.
  - unfold ueqb in E. intros E'. rewrite E' in E. discriminate.
Qed.

Lemma run_names path ps : forall st st',
  run path ps st = Ok st' ->
  Forall (fun r => py_strip (nctool_name r) <> []) (records st) ->
  Forall (fun r => py_strip (nctool_name r) <> []) (records st').
Proof.
  induction ps as [|p ps IH]; intros st st' H Hst; simpl in H.
  - injection H as <-. exact Hst.
  - destruct (step path st p) as [st1|] eqn:E; simpl in H; [|discriminate].
    apply (IH st1); [exact H|]. revert E. unfold step.
    destruct (nctool_match p) as [m|].
    + destruct (nctool_page path p m); simpl; [|discriminate].
      intros E; injection E as <-. simpl. apply finalize_names, Hst.
    + destruct (current st); intros E; injection E as <-; exact Hst.
Qed.

(** Claim C7: every record of a completed parse has a display name that is
    neither empty nor whitespace only; sealing a record whose name strips
    to the empty string gives it the placeholder name "(UNKNOWN_NCTOOL)"
    and appends a warning to that record, without failing. *)
Theorem parse_names_nonblank (path : ustr) (pages : list page)
    (recs : list NcToolRecord) (errs : list ustr) :
  parse_nctools_html path pages = Ok (recs, errs) ->
  Forall (fun r => nctool_name r <> [] /\ py_strip (nctool_name r) <> []) recs /\
  (forall st c, current st = Some c -> ueqb (py_strip (nctool_name c)) [] = true ->
     records (finalize_current st) =
       records st ++ [add_warning empty_name_warning (set_attr F_nctool_name UNKNOWN_NCTOOL c)]).
Proof.
  intros H. destruct (parse_ok_inv _ _ _ _ H) as (st & Hrun & -> & _). split.
  - assert (Hn : Forall (fun r => py_strip (nctool_name r) <> []) (records (finalize_current st))).
    { apply finalize_names. apply (run_names _ _ _ _ Hrun). constructor. }
    eapply Forall_impl; [exact Hn|]. intros r Hr. split; [|exact Hr].
    intros E. apply Hr. rewrite E. reflexivity.
  - intros st0 c Hc Hb. unfold finalize_current. rewrite Hc, Hb. reflexivity.
Qed.

Lemma run_skipped path pre :
  Forall (fun p => nctool_match p = None) pre -> run path pre init_state = Ok init_state.
Proof.
  induction 1 as [|p pre Hp _ IH]; [reflexivity|].
  simpl. unfold step. rewrite Hp. simpl. exact IH.
Qed.

Lemma parse_cons path pages :
  pages <> [] ->
  parse_nctools_html path pages =
    (st ← run path pages init_state;
     Ok (records (finalize_current st), errors (finalize_current st))).
Proof. destruct pages; [contradiction|reflexivity]. Qed.

(** Claim C6: pages met before the first NC-tool (Assembly) page are
    dropped without a trace: putting them in front of a non-empty document
    changes nothing of the result (records, their fields and warnings, and
    the document-level warnings), and a document made of such pages only
    gives no record and no warning. *)
Theorem parse_skips_leading_pages (path : ustr) (pre : list page) :
  Forall (fun p => nctool_match p = None) pre ->
  (forall rest, rest <> [] ->
     parse_nctools_html path (pre ++ rest) = parse_nctools_html path rest) /\
  (pre <> [] -> parse_nctools_html path pre = Ok ([], [])).
Proof.
  intros Hpre. split.
  - intros rest Hrest.
    assert (Hne : pre ++ rest <> []) by (destruct pre; [exact Hrest|discriminate]).
    rewrite (parse_cons _ _ Hne), (parse_cons _ _ Hrest), run_app, run_skipped by exact Hpre.
    reflexivity.
  - intros Hne. rewrite (parse_cons _ _ Hne), run_skipped by exact Hpre. reflexivity.
Qed.

(* ------------------------------------------------------------------ *)
(** ** Failures and dead branches *)

(** Claim C4 (code bug): the parse fails with the structural error on a
    document without pages, but a document with one page can fail too: a
    reach that [_to_float_mm] reads as infinity makes [_fmt_mm] call
    [round(inf)], which raises [OverflowError] and aborts the parse. *)
Theorem parse_fails_on_huge_reach :
  parse_nctools_html (u "doc.html") [] = Err (RuntimeError no_page_message) /\
  overflow_doc <> [] /\
  parse_nctools_html (u "doc.html") overflow_doc = Err OverflowError.
Proof. split; [reflexivity|split; [discriminate|vm_compute; reflexivity]]. Qed.

(** Claim C8 (code bug): the heading "サブホルダー: SH1" of a Japanese
    sub-holder page contains "ホルダー: SH1", so the unanchored holder
    pattern, tried first, takes the page as a holder page: on any open
    record it sets [holder_page_name] to "SH1" and appends the missing
    holder-table warning, instead of appending only the sub-holder
    warning. *)
Theorem subholder_page_taken_as_holder (c : NcToolRecord) :
  attach_page c subholder_page (page_h3 subholder_page) =
    add_warning (u "ホルダーページのtableが見つかりません")
      (set_attr F_holder_page_name (u "SH1") c) /\
  rx_search _RE_SUBHOLDER_H3_JA (page_h3 subholder_page) <> None.
Proof.
  split; [|vm_compute; discriminate].
  unfold attach_page.
  assert (E1 : _match_any [_RE_TOOL_H3_JA; _RE_TOOL_H3_EN] (page_h3 subholder_page) = None)
    by (vm_compute; reflexivity).
  rewrite E1.
  destruct (_match_any [_RE_HOLDER_H3_JA; _RE_HOLDER_H3_EN] (page_h3 subholder_page))
    as [m|] eqn:E2; [|vm_compute in E2; discriminate].
  assert (Hm : clean_text (group 1 m) = u "SH1").
  { vm_compute in E2. injection E2 as <-. vm_compute. reflexivity. }
  unfold holder_page. rewrite Hm. reflexivity.
Qed.

(* ------------------------------------------------------------------ *)
(** ** The theorems on the sample document *)

Lemma parse_one_record_per_nctool_page_witness :
  exists recs errs, parse_nctools_html (u "doc.html") sample_doc = Ok (recs, errs) /\
    map nctool_no recs = [Some 7%Z; Some 8%Z].
Proof.
  assert (H : match parse_nctools_html (u "doc.html") sample_doc with
              | Ok _ => True | Err _ => False end) by (vm_compute; exact I).
  destruct (parse_nctools_html (u "doc.html") sample_doc) as [[recs errs]|e] eqn:E; [|contradiction].
  exists recs, errs. split; [reflexivity|].
  destruct (parse_one_record_per_nctool_page _ _ _ _ E) as (N & _).
  rewrite N. vm_compute. reflexivity.
Defined.

Lemma parse_no_document_warnings_witness :
  exists recs errs, parse_nctools_html (u "doc.html") sample_doc = Ok (recs, errs) /\ errs = [].
Proof.
  assert (H : match parse_nctools_html (u "doc.html") sample_doc with
              | Ok _ => True | Err _ => False end) by (vm_compute; exact I).
  destruct (parse_nctools_html (u "doc.html") sample_doc) as [[recs errs]|e] eqn:E; [|contradiction].
  exists recs, errs. split; [reflexivity|]. exact (parse_no_document_warnings _ _ _ _ E).
Defined.

Lemma parse_names_nonblank_witness :
  exists recs errs, parse_nctools_html (u "doc.html") sample_doc = Ok (recs, errs) /\
    map nctool_name recs = [u "T1"; UNKNOWN_NCTOOL] /\
    Forall (fun r => nctool_name r <> [] /\ py_strip (nctool_name r) <> []) recs.
Proof.
  assert (H : match parse_nctools_html (u "doc.html") sample_doc with
              | Ok (recs, _) => map nctool_name recs = [u "T1"; UNKNOWN_NCTOOL]
              | Err _ => False end) by (vm_compute; reflexivity).
  destruct (parse_nctools_html (u "doc.html") sample_doc) as [[recs errs]|e] eqn:E; [|contradiction].
  exists recs, errs. split; [reflexivity|].
  split; [exact H|exact (proj1 (parse_names_nonblank _ _ _ _ E))].
Defined.

Lemma parse_skips_leading_pages_witness :
  Forall (fun p => nctool_match p = None) (take 1 sample_doc) /\
  parse_nctools_html (u "doc.html") sample_doc = parse_nctools_html (u "doc.html") (drop 1 sample_doc).
Proof.
  assert (H : Forall (fun p => nctool_match p = None) (take 1 sample_doc)).
  { constructor; [vm_compute; reflexivity|constructor]. }
  split; [exact H|].
  rewrite <- (take_drop 1 sample_doc) at 1.
  apply (proj1 (parse_skips_leading_pages _ _ H)). discriminate.
Defined.

(* ------------------------------------------------------------------ *)
(** ** What each branch of the loop assigns *)

Lemma attr_set_other f g v c : g <> f -> attr (set_attr f v c) g = attr c g.
Proof. intros H. unfold set_attr. simpl. rewrite decide_False by exact H. reflexivity. Qed.

Lemma attr_set_same f v c : attr (set_attr f v c) f = v.
Proof. unfold set_attr. simpl. rewrite decide_True by reflexivity. reflexivity. Qed.

Lemma attr_add_warning w c g : attr (add_warning w c) g = attr c g.
Proof. reflexivity. Qed.

Lemma attr_set_no n c g : attr (set_no n c) g = attr c g.
Proof. reflexivity. Qed.



Ltac frame_tac Hf :=
  repeat first
    [ rewrite attr_add_warning
    | rewrite attr_set_no
    | rewrite attr_set_other; [|intros ->; apply Hf; set_solver] ].

Lemma attach_attr_frame c p h3 f :
  f ∉ attach_fields -> attr (attach_page c p h3) f = attr c f.
Proof.
  intros Hf. unfold attach_page, tool_page, holder_page.
  repeat case_match; frame_tac Hf; reflexivity.
Qed.


Lemma scan_fold_frame f rows : forall sc,
  f ∉ [F_holder_name; F_holder_length; F_tool_name; F_tool_length] ->
  attr (sc_cur (fold_left scan_row rows sc)) f = attr (sc_cur sc) f.
Proof.
  induction rows as [|r rows IH]; intros sc Hf; simpl; [reflexivity|].
  rewrite IH by exact Hf. unfold scan_row.
  destruct (ueqb _ (u "holder")); [cbn [sc_cur]; frame_tac Hf; reflexivity|].
  destruct (ueqb _ (u "tool")); [cbn [sc_cur]; frame_tac Hf; reflexivity|].
  destruct (is_ext_kind _); reflexivity.
Qed.

Lemma coupling_block_frame c rows c' f :
  coupling_block c rows = Ok c' ->
  f ∉ [F_holder_name; F_holder_length; F_tool_name; F_tool_length; F_extensions_str;
       F_ext_overhang_mm; F_tool_overhang_mm; F_overhang_mm] ->
  attr c' f = attr c f.
Proof.
  intros H Hf. unfold coupling_block in H.
  repeat match type of H with
    | context [mbind _ ?m] =>
        let E := fresh "E" in
        destruct m eqn:E; cbn [mbind res_bind] in H; [|discriminate]
    end.
  injection H as <-. frame_tac Hf.
  rewrite scan_fold_frame by (intros Hin; apply Hf; set_solver). reflexivity.
Qed.

(** The attributes of the record an NC-tool page opens: those the branch
    does not assign keep the value of [NcToolRecord(source_html_path=path)],
    the name is the cleaned heading group and the image source is the
    [src] of the page's first image. *)
Lemma nctool_page_attrs path p m c :
  nctool_page path p m = Ok c ->
  (forall f, f ∉ nct_fields -> attr c f = attr (new_record path) f) /\
  nctool_name c = clean_text (group 1 m) /\
  attr c F_image_rel_src = img_src p.
Proof.
  unfold nctool_page, nctool_name, img_src. intros H.
  destruct (List.find bordered (pg_tables p)) as [t|]; cbn [mbind res_bind] in H.
  - destruct (coupling_block _ _) as [c1|] eqn:Ec; cbn [mbind res_bind] in H; [|discriminate].
    injection H as <-.
    pose proof (fun f Hf => coupling_block_frame _ _ _ f Ec Hf) as Hc.
    split; [|split].
    + intros f Hf.
      destruct (pg_img p) as [[s|]|]; [destruct (negb (ueqb s []))|..]; frame_tac Hf;
        (rewrite Hc by (intros Hin; apply Hf; unfold nct_fields; set_solver));
        destruct (pg_tables p) as [|t0 [|t1 ts]]; frame_tac Hf; reflexivity.
    + assert (Hn : F_nctool_name <> F_image_rel_src) by discriminate.
      destruct (pg_img p) as [[s|]|]; [destruct (negb (ueqb s []))|..];
        rewrite ?attr_add_warning, ?attr_set_other by exact Hn;
        (rewrite Hc by set_solver);
        destruct (pg_tables p) as [|t0 [|t1 ts]];
        rewrite ?attr_add_warning, ?attr_set_other by discriminate;
        rewrite ?attr_set_no, attr_set_same; reflexivity.
    + destruct (pg_img p) as [[s|]|]; [destruct (negb (ueqb s [])) eqn:Es|..].
      * apply attr_set_same.
      * rewrite attr_add_warning, Hc by set_solver.
        unfold ueqb in Es. apply negb_false_iff, bool_decide_eq_true in Es. subst s.
        destruct (pg_tables p) as [|t0 [|t1 ts]];
          rewrite ?attr_add_warning, ?attr_set_other, ?attr_set_no, ?attr_set_other by discriminate;
          reflexivity.
      * rewrite attr_add_warning, Hc by set_solver.
        destruct (pg_tables p) as [|t0 [|t1 ts]];
          rewrite ?attr_add_warning, ?attr_set_other, ?attr_set_no, ?attr_set_other by discriminate;
          reflexivity.
      * rewrite attr_add_warning, Hc by set_solver.
        destruct (pg_tables p) as [|t0 [|t1 ts]];
          rewrite ?attr_add_warning, ?attr_set_other, ?attr_set_no, ?attr_set_other by discriminate;
          reflexivity.
  - injection H as <-. split; [|split].
    + intros f Hf.
      destruct (pg_img p) as [[s|]|]; [destruct (negb (ueqb s []))|..]; frame_tac Hf;
        destruct (pg_tables p) as [|t0 [|t1 ts]]; frame_tac Hf; reflexivity.
    + destruct (pg_img p) as [[s|]|]; [destruct (negb (ueqb s []))|..];
        rewrite ?attr_add_warning, ?attr_set_other by discriminate;
        destruct (pg_tables p) as [|t0 [|t1 ts]];
        rewrite ?attr_add_warning, ?attr_set_other by discriminate;
        rewrite ?attr_set_no, attr_set_same; reflexivity.
    + destruct (pg_img p) as [[s|]|]; [destruct (negb (ueqb s [])) eqn:Es|..].
      * apply attr_set_same.
      * rewrite attr_add_warning.
        unfold ueqb in Es. apply negb_false_iff, bool_decide_eq_true in Es. subst s.
        destruct (pg_tables p) as [|t0 [|t1 ts]];
          rewrite ?attr_add_warning, ?attr_set_other, ?attr_set_no, ?attr_set_other by discriminate;
          reflexivity.
      * rewrite attr_add_warning.
        destruct (pg_tables p) as [|t0 [|t1 ts]];
          rewrite ?attr_add_warning, ?attr_set_other, ?attr_set_no, ?attr_set_other by discriminate;
          reflexivity.
      * rewrite attr_add_warning.
        destruct (pg_tables p) as [|t0 [|t1 ts]];
          rewrite ?attr_add_warning, ?attr_set_other, ?attr_set_no, ?attr_set_other by discriminate;
          reflexivity.
Qed.

Lemma finalize_records st :
  records (finalize_current st) = records st ++ map seal (open_list st).
Proof.
  unfold finalize_current, open_list, seal. destruct (current st); simpl; [reflexivity|].
  rewrite app_nil_r. reflexivity.
Qed.

(** A view [g] of the records that the pages attached to a record leave
    alone, that the NC-tool page fixes (to [g0 p m]) and that sealing
    transforms by [h], is read off the NC-tool pages of the document. *)
Section Projection.
Context {A : Type}.
Variable path : ustr.
Variable g : NcToolRecord -> A.
Variable g0 : page -> caps -> A.
Variable h : A -> A.
Hypothesis Hattach : forall c p h3, g (attach_page c p h3) = g c.
Hypothesis Hopen : forall p m c, nctool_page path p m = Ok c -> g c = g0 p m.
Hypothesis Hseal : forall c, g (seal c) = h (g c).

Local Abbreviation sealed_view := (sealed_view g h).

Lemma finalize_view st : map g (records (finalize_current st)) = sealed_view st.
Proof.
  rewrite finalize_records, map_app, map_map. unfold sealed_view.
  f_equal. apply map_ext. exact Hseal.
Qed.

Lemma step_view st p st' :
  step path st p = Ok st' ->
  sealed_view st' = sealed_view st ++
    map (fun pm => h (g0 (fst pm) (snd pm))) (option_list (option_map (pair p) (nctool_match p))).
Proof.
  unfold step. destruct (nctool_match p) as [m|]; simpl.
  - destruct (nctool_page path p m) as [c|] eqn:E; simpl; [|discriminate].
    intros H; injection H as <-. unfold sealed_view at 1. cbn [records open_list current].
    rewrite finalize_view. simpl. rewrite (Hopen _ _ _ E). reflexivity.
  - rewrite app_nil_r. destruct (current st) as [c|] eqn:Ec.
    + intros H; injection H as <-. unfold sealed_view, open_list. simpl.
      rewrite Ec. simpl. rewrite Hattach. reflexivity.
    + intros H; injection H as <-. reflexivity.
Qed.

Lemma run_view pages : forall st st',
  run path pages st = Ok st' ->
  sealed_view st' = sealed_view st ++ map (fun pm => h (g0 (fst pm) (snd pm))) (nct_pages pages).
Proof.
  induction pages as [|p ps IH]; intros st st' H; simpl in H.
  - injection H as <-. unfold nct_pages. simpl. rewrite app_nil_r. reflexivity.
  - destruct (step path st p) as [st1|] eqn:E; simpl in H; [|discriminate].
    rewrite (IH _ _ H), (step_view _ _ _ E), <- app_assoc. f_equal.
    unfold nct_pages. simpl. destruct (nctool_match p); reflexivity.
Qed.

Lemma parse_view pages recs errs :
  parse_nctools_html path pages = Ok (recs, errs) ->
  map g recs = map (fun pm => h (g0 (fst pm) (snd pm))) (nct_pages pages).
Proof.
  intros H. destruct (parse_ok_inv _ _ _ _ H) as (st & Hrun & -> & _).
  rewrite finalize_view, (run_view _ _ _ Hrun). reflexivity.
Qed.
End Projection.

Lemma attach_name c p h3 : nctool_name (attach_page c p h3) = nctool_name c.
Proof. apply attach_attr_frame. unfold attach_fields. set_solver. Qed.

Lemma attach_image c p h3 : attr (attach_page c p h3) F_image_rel_src = attr c F_image_rel_src.
Proof. apply attach_attr_frame. unfold attach_fields. set_solver. Qed.

Lemma attach_path c p h3 :
  attr (attach_page c p h3) F_source_html_path = attr c F_source_html_path.
Proof. apply attach_attr_frame. unfold attach_fields. set_solver. Qed.


(** Extra: when the parse completes, the names of the records are, in
    order, the cleaned name groups of the NC-tool headings of the
    document, each replaced by [(UNKNOWN_NCTOOL)] when it is blank; the
    pages attached to a record never rename it. *)
Theorem parse_names_from_headings (path : ustr) (pages : list page) recs errs :
  parse_nctools_html path pages = Ok (recs, errs) ->
  map nctool_name recs = map (fun pm => name_of_heading (snd pm)) (nct_pages pages).
Proof.
  apply (parse_view path nctool_name (fun _ m => clean_text (group 1 m))
           (fun n => if ueqb (py_strip n) [] then UNKNOWN_NCTOOL else n)).
  - exact attach_name.
  - intros p m c E. exact (proj1 (proj2 (nctool_page_attrs _ _ _ _ E))).
  - intros c. unfold seal. destruct (ueqb (py_strip (nctool_name c)) []); [|reflexivity].
    unfold nctool_name at 1. rewrite attr_add_warning, attr_set_same. reflexivity.
Qed.

(** Extra: when the parse completes, the [image_rel_src] of each record is
    the [src] of the first image of its NC-tool page ([""] when the page has
    no image or an empty [src]); pages attached later never change it. *)
Theorem parse_image_src_from_page (path : ustr) (pages : list page) recs errs :
  parse_nctools_html path pages = Ok (recs, errs) ->
  map (fun r => attr r F_image_rel_src) recs = map (fun pm => img_src (fst pm)) (nct_pages pages).
Proof.
  apply (parse_view path (fun r => attr r F_image_rel_src) (fun p _ => img_src p) id).
  - exact attach_image.
  - intros p m c E. exact (proj2 (proj2 (nctool_page_attrs _ _ _ _ E))).
  - intros c. unfold seal. destruct (ueqb _ _); [|reflexivity].
    rewrite attr_add_warning, attr_set_other by discriminate. reflexivity.
Qed.

(** Extra: when the parse completes, every record carries the path it was
    parsed from as [source_html_path]. *)
Theorem parse_source_path (path : ustr) (pages : list page) recs errs :
  parse_nctools_html path pages = Ok (recs, errs) ->
  Forall (fun r => attr r F_source_html_path = path) recs.
Proof.
  intros H.
  assert (E : map (fun r => attr r F_source_html_path) recs = map (fun _ => path) (nct_pages pages)).
  { refine (parse_view path (fun r => attr r F_source_html_path) (fun _ _ => path) id
             attach_path _ _ pages recs errs H).
    - intros p m c Ec. rewrite (proj1 (nctool_page_attrs _ _ _ _ Ec)); [reflexivity|].
      unfold nct_fields. set_solver.
    - intros c. unfold seal. destruct (ueqb _ _); [|reflexivity].
      rewrite attr_add_warning, attr_set_other by discriminate. reflexivity. }
  apply (proj1 (List.Forall_map (fun r => attr r F_source_html_path) (fun a => a = path) recs)).
  rewrite E. apply List.Forall_map. apply Forall_forall. reflexivity.
Qed.

(* ------------------------------------------------------------------ *)
(** ** The cells of the F2 block sheet *)

Lemma block_rows_range s b w r x :
  x ∈ map fst (block_writes s b w r) -> (s + w * b <= fst x <= s + w * b + 2)%Z.
Proof.
  rewrite list_elem_of_In. unfold block_writes. cbn [map fst].
  intros Hin. repeat destruct Hin as [Hin|Hin]; try (subst x; simpl; lia). contradiction.
Qed.

Lemma block_keys_nodup s b w r : NoDup (map fst (block_writes s b w r)).
Proof.
  unfold block_writes. cbn [map fst].
  repeat constructor; rewrite list_elem_of_In; cbn [In];
    intros Hin; repeat destruct Hin as [Hin|Hin]; try (injection Hin; lia); contradiction.
Qed.

Lemma record_rows_range s b rs : forall w x,
  (0 <= b)%Z -> x ∈ map fst (f2_record_writes s b w rs) -> (s + w * b <= fst x)%Z.
Proof.
  induction rs as [|r rs IH]; intros w x Hb Hx; cbn [f2_record_writes] in Hx.
  - apply elem_of_nil in Hx. contradiction.
  - rewrite map_app in Hx. apply elem_of_app in Hx as [Hx|Hx].
    + apply block_rows_range in Hx. lia.
    + apply IH in Hx; [nia|exact Hb].
Qed.

Lemma record_keys_nodup s b rs : forall w,
  (3 <= b)%Z -> NoDup (map fst (f2_record_writes s b w rs)).
Proof.
  induction rs as [|r rs IH]; intros w Hb; cbn [f2_record_writes]; [constructor|].
  rewrite map_app. apply NoDup_app. split; [apply block_keys_nodup|split; [|apply IH; exact Hb]].
  intros x Hx Hy. apply block_rows_range in Hx. apply record_rows_range in Hy; [nia|lia].
Qed.

Lemma f2_header_keys rs s b :
  map fst (f2_writes s b rs) =
    [(1,1); (1,2); (1,3); (1,4); (1,5); (1,6); (1,7); (1,8); (1,9); (1,10); (1,11)]%Z ++
    map fst (f2_record_writes s b 0 rs).
Proof. unfold f2_writes. rewrite map_app. f_equal. Qed.

(** Extra: with [start_row >= 2] and [block_rows >= 3] (the defaults are 2
    and 3), [export_blocks_f2_xlsx] never writes two values to the same
    cell: the header cells of row 1 and the cells of the three rows of each
    record block are pairwise distinct, so no block overwrites the header
    or another block. *)
Theorem f2_cells_written_once (start_row block_rows : Z) (recs : list NcToolRecord) :
  (2 <= start_row)%Z -> (3 <= block_rows)%Z ->
  NoDup (map fst (f2_writes start_row block_rows recs)).
Proof.
  intros Hs Hb. rewrite f2_header_keys. apply NoDup_app. split; [apply (bool_decide_unpack _); vm_compute; exact I|split].
  - intros x Hx Hy. apply record_rows_range in Hy; [|lia].
    rewrite list_elem_of_In in Hx. cbn [In] in Hx.
    repeat destruct Hx as [Hx|Hx]; try (subst x; simpl in Hy; lia). contradiction.
  - apply record_keys_nodup. exact Hb.
Qed.

(* ------------------------------------------------------------------ *)
(** ** The errors sheet *)

Lemma parse_errs_nil path pages recs errs :
  parse_nctools_html path pages = Ok (recs, errs) -> errs = [].
Proof.
  intros H. destruct (parse_ok_inv _ _ _ _ H) as (st & Hrun & _ & ->).
  destruct (run_inv _ _ _ _ Hrun) as (_ & _ & E).
  rewrite finalize_errors, E. reflexivity.
Qed.

Section ErrorsSheetProofs.
Variable resolve_image_path : ustr -> option ustr.
Variable resize_error : NcToolRecord -> ustr -> option ustr.

Lemma records_sheet_rows embed recs : forall i e,
  e ∈ records_sheet_entries resolve_image_path resize_error embed i recs ->
  (i <= entry_row e < i + Z.of_nat (length recs))%Z.
Proof.
  induction recs as [|r rs IH]; intros i e He; cbn [records_sheet_entries] in He.
  - apply elem_of_nil in He. contradiction.
  - apply elem_of_app in He as [He|He].
    + unfold record_sheet_entries in He. apply elem_of_app in He as [He|He].
      * destruct embed; [|apply elem_of_nil in He; contradiction].
        destruct (resolve_image_path _) as [a|];
          [destruct (resize_error r a)|];
          repeat (apply elem_of_cons in He as [He|He]; [subst e; cbn [length entry_row fst]; lia|]);
          apply elem_of_nil in He; contradiction.
      * rewrite list_elem_of_In in He. apply in_map_iff in He as (w & <- & _).
        cbn [length entry_row fst]. lia.
    + apply IH in He. simpl length. lia.
Qed.

Lemma records_sheet_no_embed recs : forall i,
  records_sheet_entries resolve_image_path resize_error false i recs =
  concat (imap (fun k r => map (fun w => ((i + Z.of_nat k)%Z, nctool_name r, w)) (warnings r)) recs).
Proof.
  induction recs as [|r rs IH]; intros i; [reflexivity|].
  cbn [records_sheet_entries]. rewrite IH, imap_cons. simpl concat. f_equal.
  - unfold record_sheet_entries. simpl. apply map_ext. intros w. do 2 f_equal. lia.
  - f_equal. apply imap_ext. intros k r' _. apply map_ext. intros w. do 2 f_equal. lia.
Qed.
End ErrorsSheetProofs.

(** Extra: when the parse completes, every entry of [errors_for_sheet]
    carries the row index of one of the records ([start] for the first
    record, [start + 1] for the next, ...), so no entry is written with the
    document-level row index 0; without image embedding the entries are
    exactly the warnings of the records, record by record and in order,
    each tagged with its record's row index and name. *)
Theorem errors_sheet_entries resolve_image_path resize_error (path : ustr) (pages : list page)
    (start : Z) (embed_images : bool) es :
  export_errors resolve_image_path resize_error path pages start embed_images = Ok es ->
  exists recs errs, parse_nctools_html path pages = Ok (recs, errs) /\
    Forall (fun e => (start <= entry_row e < start + Z.of_nat (length recs))%Z) es /\
    (embed_images = false ->
     es = concat (imap (fun k r => map (fun w => ((start + Z.of_nat k)%Z, nctool_name r, w))
                                      (warnings r)) recs)).
Proof.
  unfold export_errors. destruct (parse_nctools_html path pages) as [[recs errs]|] eqn:E;
    cbn [mbind res_bind]; [|discriminate].
  intros H; injection H as <-. exists recs, errs. split; [reflexivity|].
  rewrite (parse_errs_nil _ _ _ _ E). unfold errors_for_sheet. simpl. rewrite app_nil_r.
  split.
  - apply Forall_forall. intros e He.
    exact (records_sheet_rows _ _ _ _ _ _ He).
  - intros ->. apply records_sheet_no_embed.
Qed.

(* ------------------------------------------------------------------ *)
(** ** sanitize_filename *)

Lemma replace_char_step ch L s :
  95 ∉ invalid_filename_chars ->
  Forall (fun c => c ∈ invalid_filename_chars -> c ∈ ch :: L) s ->
  Forall (fun c => c ∈ invalid_filename_chars -> c ∈ L) (replace_char ch s).
Proof.
  intros H95 Hs. unfold replace_char. induction Hs as [|c t Hc Ht IH]; simpl; constructor; auto.
  destruct (c =? ch) eqn:E.
  - intros H. exfalso. exact (H95 H).
  - intros H. apply Hc in H. apply elem_of_cons in H as [->|H]; [|exact H].
    rewrite N.eqb_refl in E. discriminate.
Qed.

Lemma fold_replace_clean L : forall s,
  95 ∉ invalid_filename_chars ->
  Forall (fun c => c ∈ invalid_filename_chars -> c ∈ L) s ->
  Forall (fun c => c ∉ invalid_filename_chars)
    (fold_left (fun out ch => replace_char ch out) L s).
Proof.
  induction L as [|ch L IH]; intros s H95 Hs; simpl.
  - eapply Forall_impl; [exact Hs|]. intros c Hc Hi. apply Hc in Hi.
    apply elem_of_nil in Hi. exact Hi.
  - apply IH; [exact H95|]. apply replace_char_step; [exact H95|exact Hs].
Qed.

Lemma fold_replace_id L : forall s,
  Forall (fun c => c ∉ L) s -> fold_left (fun out ch => replace_char ch out) L s = s.
Proof.
  induction L as [|ch L IH]; intros s Hs; simpl; [reflexivity|].
  assert (E : replace_char ch s = s).
  { unfold replace_char. induction Hs as [|c t Hc Ht IHt]; simpl; [reflexivity|].
    rewrite IHt. destruct (c =? ch) eqn:E; [|reflexivity].
    apply N.eqb_eq in E. subst c. exfalso. apply Hc. apply elem_of_cons. left. reflexivity. }
  rewrite E. apply IH. eapply Forall_impl; [exact Hs|].
  intros c Hc Hi. apply Hc. apply elem_of_cons. right. exact Hi.
Qed.

Lemma lstrip_chars_forall (P : N -> Prop) chars s : Forall P s -> Forall P (lstrip_chars chars s).
Proof.
  induction s as [|c t IH]; intros Hs; simpl; [constructor|].
  inversion Hs; subst. destruct (existsb _ _); [apply IH; assumption|exact Hs].
Qed.

Lemma rstrip_chars_forall (P : N -> Prop) chars s : Forall P s -> Forall P (rstrip_chars chars s).
Proof.
  intros Hs. unfold rstrip_chars. apply Forall_rev, lstrip_chars_forall, Forall_rev, Hs.
Qed.

Lemma drop_ws_forall (P : N -> Prop) s : Forall P s -> Forall P (drop_ws s).
Proof.
  induction s as [|c t IH]; intros Hs; simpl; [constructor|].
  inversion Hs; subst. destruct (is_space c); [apply IH; assumption|exact Hs].
Qed.

Lemma py_strip_forall (P : N -> Prop) s : Forall P s -> Forall P (py_strip s).
Proof.
  intros Hs. unfold py_strip. apply Forall_rev, drop_ws_forall, Forall_rev, drop_ws_forall, Hs.
Qed.

(** Extra: for every [name], [sanitize_filename] returns a non-empty
    string with none of the characters less-than, greater-than, colon,
    double quote, slash, backslash, bar, question mark and asterisk, and
    with no whitespace at either end. *)
Theorem sanitize_filename_safe (name : ustr) :
  sanitize_filename name <> [] /\
  Forall (fun c => c ∉ invalid_filename_chars) (sanitize_filename name) /\
  head_ok (sanitize_filename name) /\ last_ok (sanitize_filename name).
Proof.
  unfold sanitize_filename.
  set (out := py_strip (rstrip_chars [46; 32]
                (fold_left (fun out ch => replace_char ch out) invalid_filename_chars name))).
  assert (H95 : 95 ∉ invalid_filename_chars) by (apply (bool_decide_unpack _); vm_compute; exact I).
  destruct (ueqb out []) eqn:E.
  - split; [discriminate|split; [|split]].
    + apply (bool_decide_unpack _). vm_compute. exact I.
    + vm_compute. reflexivity.
    + vm_compute. reflexivity.
  - split; [intros H; rewrite H in E; discriminate|split; [|split]].
    + apply py_strip_forall, rstrip_chars_forall, fold_replace_clean; [exact H95|].
      apply Forall_forall. intros c _ Hc. exact Hc.
    + apply py_strip_head.
    + apply py_strip_last.
Qed.

(** Extra: [sanitize_filename] returns unchanged every non-empty name that
    has none of the replaced characters, no whitespace at either end and
    no trailing period. *)
Theorem sanitize_filename_keeps_clean (s : ustr) :
  s <> [] -> Forall (fun c => c ∉ invalid_filename_chars) s ->
  head_ok s -> last_ok s -> (forall t, s <> t ++ [46]) ->
  sanitize_filename s = s.
Proof.
  intros Hne Hinv Hh Hl Hdot. unfold sanitize_filename.
  rewrite (fold_replace_id _ _ Hinv).
  assert (Hr : rstrip_chars [46; 32] s = s).
  { unfold rstrip_chars, last_ok in *. destruct (rev s) as [|c t] eqn:E.
    - exfalso. apply Hne. rewrite <- (rev_involutive s), E. reflexivity.
    - simpl in Hl. simpl.
      assert (Hc : c <> 46).
      { intros ->. apply (Hdot (rev t)). rewrite <- (rev_involutive s), E. reflexivity. }
      assert (Hc' : c <> 32) by (intros ->; discriminate).
      apply N.eqb_neq in Hc, Hc'. rewrite Hc, Hc'. simpl.
      rewrite <- (rev_involutive s), E. reflexivity. }
  rewrite Hr, (py_strip_id s Hh Hl).
  unfold ueqb. rewrite bool_decide_false by exact Hne. reflexivity.
Qed.

(* ------------------------------------------------------------------ *)
(** ** _fmt_mm, key normalisation, tables *)

(** Extra: [_fmt_mm] raises only on an infinite value (OverflowError, from
    [round]) and on nan (ValueError); [None], zeros and every finite value
    are formatted. *)
Theorem fmt_mm_errors (x : option float) (e : exc) :
  _fmt_mm x = Err e <->
  (x = Some (S754_infinity true) \/ x = Some (S754_infinity false)) /\ e = OverflowError \/
  x = Some S754_nan /\ e = ValueError.
Proof.
  destruct x as [f|]; [|split; [discriminate|intros [[[H|H] _]|[H _]]; discriminate]].
  unfold _fmt_mm. destruct f as [s|s| |s m ex]; cbn [py_round mbind res_bind].
  - destruct (fltb _ _); split; (discriminate || intros [[[H|H] _]|[H _]]; discriminate).
  - split; [intros H; injection H as <-; left; destruct s; auto|].
    intros [[_ ->]|[H _]]; [reflexivity|discriminate].
  - split; [intros H; injection H as <-; right; auto|].
    intros [[[H|H] _]|[_ ->]]; [discriminate|discriminate|reflexivity].
  - destruct (fltb _ _); split; (discriminate || intros [[[H|H] _]|[H _]]; discriminate).
Qed.

Lemma clean_text_twice s : clean_text (clean_text s) = clean_text s.
Proof.
  unfold clean_text.
  assert (Hh : head_ok (ws_sub false (py_strip s))) by apply ws_sub_head, py_strip_head.
  assert (Hl : last_ok (ws_sub false (py_strip s))) by apply ws_sub_last, py_strip_last.
  rewrite (py_strip_id _ Hh Hl). apply ws_sub_id, ws_sub_canon.
Qed.

Lemma map_get_or_self_idem (M : list (ustr * ustr)) h :
  forallb (fun p => ueqb (clean_text (snd p)) (snd p) && ueqb (map_get_or_self M (snd p)) (snd p)) M
    = true ->
  map_get_or_self M (clean_text (map_get_or_self M (clean_text h))) =
    map_get_or_self M (clean_text h).
Proof.
  intros HM. unfold map_get_or_self at 2 3.
  destruct (List.find _ M) as [[k v]|] eqn:E.
  - apply find_some in E as [Hin _]. rewrite forallb_forall in HM.
    apply HM in Hin. apply andb_true_iff in Hin as [H1 H2]. unfold ueqb in H1, H2.
    apply bool_decide_eq_true in H1, H2. simpl in H1, H2. rewrite H1. exact H2.
  - rewrite clean_text_twice. unfold map_get_or_self. rewrite E. reflexivity.
Qed.

(** Extra: [_norm_grid_header] and [_norm_kv_key] are idempotent: a
    normalised header or key (such as [coupling_type] or [nctool_comment])
    normalises to itself. *)
Theorem norm_keys_idempotent (h : ustr) :
  _norm_grid_header (_norm_grid_header h) = _norm_grid_header h /\
  _norm_kv_key (_norm_kv_key h) = _norm_kv_key h.
Proof.
  split; apply map_get_or_self_idem; vm_compute; reflexivity.
Qed.

Lemma nth_default_lookup (l : list ustr) i : nth i l [] = default [] (l !! i).
Proof.
  revert i; induction l as [|x t IH]; intros [|i]; simpl; auto.
Qed.

Lemma grid_row_fold (header vals : list ustr) (k : ustr) (n : nat) :
  let d : dict := fold_left (fun d i => <[nth i header [] := nth i vals []]> d) (seq 0 n) ∅ in
  (forall i, (i < n)%nat -> nth i header [] = k ->
     (forall j, (i < j < n)%nat -> nth j header [] <> k) ->
     d !! k = Some (nth i vals [])) /\
  ((forall i, (i < n)%nat -> nth i header [] <> k) -> d !! k = None).
Proof.
  cbv zeta. induction n as [|n [IH1 IH2]].
  - split; [intros i Hi; lia|intros _; apply lookup_empty].
  - rewrite seq_S, fold_left_app. cbn [fold_left Nat.add]. split.
    + intros i Hi Hk Hj. destruct (decide (i = n)) as [->|Hne].
      * rewrite Hk. apply lookup_insert_eq.
      * rewrite lookup_insert_ne by (intros E; apply (Hj n); [lia|exact E]).
        apply IH1; [lia|exact Hk|]. intros j Hij. apply Hj. lia.
    + intros Hk. rewrite lookup_insert_ne by (intros E; apply (Hk n); [lia|exact E]).
      apply IH2. intros i Hi. apply Hk. lia.
Qed.

Lemma grid_row_lookup (header vals : list ustr) :
  (forall i k, header !! i = Some k -> (forall j, (i < j)%nat -> header !! j <> Some k) ->
     grid_row header vals !! k = Some (default [] (vals !! i))) /\
  (forall k, k ∉ header -> grid_row header vals !! k = None).
Proof.
  unfold grid_row. split.
  - intros i k Hi Hj. rewrite <- nth_default_lookup.
    apply (proj1 (grid_row_fold header vals k (length header))).
    + apply lookup_lt_Some in Hi. exact Hi.
    + apply (nth_lookup_Some _ _ [] _ Hi).
    + intros j Hj' E. destruct (lookup_lt_is_Some_2 header j) as [x Hx]; [lia|].
      apply (Hj j); [lia|]. rewrite Hx. rewrite (nth_lookup_Some _ _ [] _ Hx) in E. congruence.
  - intros k Hk. apply (proj2 (grid_row_fold header vals k (length header))).
    intros i Hi E. apply Hk. destruct (lookup_lt_is_Some_2 header i) as [x Hx]; [lia|].
    rewrite (nth_lookup_Some _ _ [] _ Hx) in E. subst x. apply list_elem_of_lookup_2 in Hx.
    exact Hx.
Qed.

(** Extra: every row dict [_parse_grid_table] returns comes from a later
    row with a non-empty cell; it maps each normalised header to the cell
    in the column of its last occurrence, or to [""] when the row is too
    short, and it has no key outside the normalised header. *)
Theorem parse_grid_table_rows (border : option ustr) (tr0 : list ustr) (trs : list (list ustr)) (d : dict) :
  let header := List.map (fun h => _norm_grid_header (clean_text h)) tr0 in
  d ∈ _parse_grid_table {| tbl_border := border; tbl_rows := tr0 :: trs |} ->
  exists tr, tr ∈ trs /\ (exists v, v ∈ List.map clean_text tr /\ v <> []) /\
    (forall i k, header !! i = Some k -> (forall j, (i < j)%nat -> header !! j <> Some k) ->
       d !! k = Some (default [] (List.map clean_text tr !! i))) /\
    (forall k, k ∉ header -> d !! k = None).
Proof.
  intros header Hd. unfold _parse_grid_table in Hd. cbn [tbl_rows] in Hd.
  apply list_elem_of_In, in_flat_map in Hd as (tr & Htr & Hd).
  destruct (existsb _ _) eqn:E; [|contradiction].
  destruct Hd as [<-|[]]. exists tr. split; [apply list_elem_of_In; exact Htr|].
  split; [|exact (grid_row_lookup header (List.map clean_text tr))].
  apply existsb_exists in E as (v & Hv & Hne). exists v.
  split; [apply list_elem_of_In; exact Hv|].
  intros ->. discriminate.
Qed.

Lemma join_nil sep l : Forall (fun x => x <> []) l -> join sep l = [] <-> l = [].
Proof.
  intros Hl. split; [|intros ->; reflexivity].
  destruct l as [|x [|y t]]; [reflexivity| |]; inversion Hl as [|? ? Hx _]; subst;
    simpl; intros H; [contradiction|].
  apply app_eq_nil in H as [H _]. contradiction.
Qed.

Lemma filter_nonempty_id (l : list ustr) :
  Forall (fun x => x <> []) l -> List.filter (fun e => negb (ueqb e [])) l = l.
Proof.
  induction 1 as [|x t Hx _ IH]; [reflexivity|]. cbn [List.filter].
  replace (ueqb x []) with false by (symmetry; apply bool_decide_false; exact Hx).
  cbn [negb]. rewrite IH. reflexivity.
Qed.

(** Extra: [_build_extensions_str_from_coupling_rows] returns [""] exactly
    when every extension-like row (coupling type [extension], [subholder]
    or [ext]) has a blank name and a blank reach after stripping; every
    other row is ignored. *)
Theorem extensions_str_empty_iff (rows : list dict) :
  _build_extensions_str_from_coupling_rows rows = [] <->
  Forall (fun r => is_ext_kind (row_kind r) = true ->
                   py_strip (dget r (u "name")) = [] /\ py_strip (dget r (u "reach")) = []) rows.
Proof.
  assert (HL : u "(L=" = [40; 76; 61]) by (vm_compute; reflexivity).
  unfold _build_extensions_str_from_coupling_rows. rewrite HL.
  set (F := fun r : dict => if is_ext_kind (row_kind r) then _ else []).
  assert (Hne : forall r, Forall (fun x => x <> []) (F r)).
  { intros r. unfold F. destruct (is_ext_kind _); [|constructor].
    destruct (ueqb (py_strip (dget r (u "name"))) [] && ueqb (py_strip (dget r (u "reach"))) [])
      eqn:E; [constructor|].
    destruct (negb (ueqb (py_strip (dget r (u "reach"))) [])) eqn:E2;
      (constructor; [|constructor]).
    - destruct (negb (ueqb (py_strip (dget r (u "name"))) [])); [|discriminate].
      intros H. apply app_eq_nil in H as [_ H]. discriminate.
    - apply negb_false_iff in E2. rewrite E2, andb_true_r in E.
      unfold ueqb in E. apply bool_decide_eq_false in E. exact E. }
  assert (Hall : Forall (fun x => x <> []) (List.flat_map F rows)).
  { apply Forall_forall. intros x Hx. apply list_elem_of_In, in_flat_map in Hx as (r & _ & Hx).
    apply list_elem_of_In in Hx. exact (proj1 (Forall_forall _ _) (Hne r) x Hx). }
  rewrite (filter_nonempty_id _ Hall), (join_nil _ _ Hall).
  clear Hall. induction rows as [|r rs IH]; simpl; [split; [constructor|reflexivity]|].
  rewrite Forall_cons. split.
  - intros H. apply app_eq_nil in H as [H1 H2]. split; [|apply IH; exact H2].
    intros Hk. revert H1. unfold F. rewrite Hk.
    destruct (ueqb (py_strip (dget r (u "name"))) []) eqn:E1;
      destruct (ueqb (py_strip (dget r (u "reach"))) []) eqn:E2; simpl; try discriminate.
    unfold ueqb in E1, E2. apply bool_decide_eq_true in E1, E2. auto.
  - intros [H1 H2]. apply IH in H2. rewrite H2, app_nil_r. unfold F.
    destruct (is_ext_kind (row_kind r)); [|reflexivity].
    destruct (H1 eq_refl) as [-> ->]. reflexivity.
Qed.

(* ------------------------------------------------------------------ *)
(** ** Full-width input of _to_float_mm *)

Lemma trans_cases c : trans c = c \/ (c, trans c) ∈ trans_table.
Proof.
  unfold trans. destruct (List.find _ trans_table) as [[a d]|] eqn:E; [|left; reflexivity].
  right. apply find_some in E as [Hin Ha]. simpl in Ha. apply N.eqb_eq in Ha. subst a.
  apply list_elem_of_In. exact Hin.
Qed.

Lemma trans_table_ok :
  Forall (fun p => is_space (snd p) = is_space (fst p) /\ trans (snd p) = snd p /\ fst p <> 32)
    trans_table.
Proof.
  apply Forall_forall. intros p Hp. apply list_elem_of_In in Hp.
  assert (H : forallb (fun p => Bool.eqb (is_space (snd p)) (is_space (fst p)) &&
                               (trans (snd p) =? snd p) && negb (fst p =? 32)) trans_table = true)
    by (vm_compute; reflexivity).
  rewrite forallb_forall in H. apply H in Hp.
  apply andb_true_iff in Hp as [Hp H3]. apply andb_true_iff in Hp as [H1 H2].
  apply Bool.eqb_prop in H1. apply N.eqb_eq in H2. apply negb_true_iff, N.eqb_neq in H3. auto.
Qed.

Lemma trans_table_space c d : (c, d) ∈ trans_table -> is_space d = is_space c.
Proof.
  intros H. pose proof (proj1 (Forall_forall _ _) trans_table_ok _ H) as Hp.
  destruct Hp as [Hs _]. exact Hs.
Qed.

Lemma trans_table_idem c d : (c, d) ∈ trans_table -> trans d = d.
Proof.
  intros H. pose proof (proj1 (Forall_forall _ _) trans_table_ok _ H) as Hp.
  destruct Hp as [_ [Hs _]]. exact Hs.
Qed.

Lemma trans_space c : is_space (trans c) = is_space c.
Proof.
  destruct (trans_cases c) as [E|H]; [rewrite E; reflexivity|].
  exact (trans_table_space c (trans c) H).
Qed.

Lemma trans_idem c : trans (trans c) = trans c.
Proof.
  destruct (trans_cases c) as [E|H]; [rewrite E; exact E|].
  exact (trans_table_idem c (trans c) H).
Qed.

Lemma trans_32 : trans 32 = 32.
Proof. vm_compute. reflexivity. Qed.

Lemma drop_ws_map s : drop_ws (List.map trans s) = List.map trans (drop_ws s).
Proof.
  induction s as [|c t IH]; [reflexivity|]. cbn [List.map drop_ws]. rewrite trans_space.
  destruct (is_space c); [exact IH|reflexivity].
Qed.

Lemma py_strip_map s : py_strip (List.map trans s) = List.map trans (py_strip s).
Proof. unfold py_strip. rewrite drop_ws_map, <- map_rev, drop_ws_map, map_rev. reflexivity. Qed.

Lemma ws_sub_map b s : ws_sub b (List.map trans s) = List.map trans (ws_sub b s).
Proof.
  revert b; induction s as [|c t IH]; intros b; [reflexivity|]. cbn [List.map ws_sub].
  rewrite trans_space.
  destruct (is_space c); [destruct b|]; cbn [List.map]; rewrite ?IH, ?trans_32; reflexivity.
Qed.

(** Extra: [_to_float_mm] reads a string and the same string with its
    full-width digits, period and signs replaced by their half-width forms
    in the same way: translating first never changes the result. *)
Theorem to_float_mm_translate_invariant (s : ustr) :
  _to_float_mm (List.map trans s) = _to_float_mm s.
Proof.
  unfold _to_float_mm. destruct s as [|c t]; [reflexivity|]. cbn [List.map].
  rewrite <- (map_cons trans c t). unfold clean_text.
  rewrite py_strip_map, ws_sub_map, map_map.
  rewrite (map_ext (fun x => trans (trans x)) trans trans_idem). reflexivity.
Qed.

(* ------------------------------------------------------------------ *)
(** ** How the parse can fail *)






(* ------------------------------------------------------------------ *)
(** ** The properties on sample inputs *)

Lemma parse_names_from_headings_witness :
  exists recs errs, parse_nctools_html (u "doc.html") sample_doc = Ok (recs, errs) /\
    map nctool_name recs = map (fun pm => name_of_heading (snd pm)) (nct_pages sample_doc).
Proof.
  assert (H : match parse_nctools_html (u "doc.html") sample_doc with
              | Ok _ => True | Err _ => False end) by (vm_compute; exact I).
  destruct (parse_nctools_html (u "doc.html") sample_doc) as [[recs errs]|e] eqn:E;
    [|contradiction].
  exists recs, errs. split; [reflexivity|]. exact (parse_names_from_headings _ _ _ _ E).
Defined.

Lemma parse_image_src_from_page_witness :
  exists recs errs, parse_nctools_html (u "doc.html") sample_doc = Ok (recs, errs) /\
    map (fun r => attr r F_image_rel_src) recs = map (fun pm => img_src (fst pm)) (nct_pages sample_doc).
Proof.
  assert (H : match parse_nctools_html (u "doc.html") sample_doc with
              | Ok _ => True | Err _ => False end) by (vm_compute; exact I).
  destruct (parse_nctools_html (u "doc.html") sample_doc) as [[recs errs]|e] eqn:E;
    [|contradiction].
  exists recs, errs. split; [reflexivity|]. exact (parse_image_src_from_page _ _ _ _ E).
Defined.

Lemma parse_source_path_witness :
  exists recs errs, parse_nctools_html (u "doc.html") sample_doc = Ok (recs, errs) /\
    Forall (fun r => attr r F_source_html_path = u "doc.html") recs.
Proof.
  assert (H : match parse_nctools_html (u "doc.html") sample_doc with
              | Ok _ => True | Err _ => False end) by (vm_compute; exact I).
  destruct (parse_nctools_html (u "doc.html") sample_doc) as [[recs errs]|e] eqn:E;
    [|contradiction].
  exists recs, errs. split; [reflexivity|]. exact (parse_source_path _ _ _ _ E).
Defined.

Lemma f2_cells_written_once_witness :
  (2 <= 2)%Z /\ (3 <= 3)%Z /\
  NoDup (map fst (f2_writes 2 3 [new_record (u "doc.html"); new_record (u "doc.html")])).
Proof. split; [lia|split; [lia|apply f2_cells_written_once; lia]]. Defined.

Lemma errors_sheet_entries_witness :
  exists es, export_errors (fun _ => None) (fun _ _ => None) (u "doc.html") sample_doc 2 true = Ok es /\
  exists recs errs, parse_nctools_html (u "doc.html") sample_doc = Ok (recs, errs) /\
    Forall (fun e => (2 <= entry_row e < 2 + Z.of_nat (length recs))%Z) es.
Proof.
  assert (H : match export_errors (fun _ => None) (fun _ _ => None) (u "doc.html") sample_doc 2 true with
              | Ok _ => True | Err _ => False end) by (vm_compute; exact I).
  destruct (export_errors (fun _ => None) (fun _ _ => None) (u "doc.html") sample_doc 2 true)
    as [es|e] eqn:E; [|contradiction].
  exists es. split; [reflexivity|].
  destruct (errors_sheet_entries _ _ _ _ _ _ _ E) as (recs & errs & Hp & Hf & _).
  exists recs, errs. split; [exact Hp|exact Hf].
Defined.

Lemma sanitize_filename_keeps_clean_witness : sanitize_filename (u "report") = u "report".
Proof.
  apply sanitize_filename_keeps_clean.
  - vm_compute. discriminate.
  - apply (bool_decide_unpack _). vm_compute. exact I.
  - vm_compute. reflexivity.
  - vm_compute. reflexivity.
  - intros t Ht. apply (f_equal (@rev N)) in Ht. rewrite rev_app_distr in Ht.
    vm_compute in Ht. discriminate.
Defined.

Lemma parse_grid_table_rows_witness :
  exists d : dict,
    d ∈ _parse_grid_table (coupling_table [[u "Tool"; u "EM10"; u "40"]]) /\
    exists tr, tr ∈ [[u "Tool"; u "EM10"; u "40"]] /\
      (exists v, v ∈ List.map clean_text tr /\ v <> []) /\
      (forall i k, List.map (fun h => _norm_grid_header (clean_text h))
                     [u "Coupling type"; u "Name"; u "Reach"] !! i = Some k ->
         (forall j, (i < j)%nat -> List.map (fun h => _norm_grid_header (clean_text h))
                     [u "Coupling type"; u "Name"; u "Reach"] !! j <> Some k) ->
         d !! k = Some (default [] (List.map clean_text tr !! i))) /\
      (forall k, k ∉ List.map (fun h => _norm_grid_header (clean_text h))
                     [u "Coupling type"; u "Name"; u "Reach"] -> d !! k = None).
Proof.
  assert (H : match _parse_grid_table (coupling_table [[u "Tool"; u "EM10"; u "40"]]) with
              | _ :: _ => True | [] => False end) by (vm_compute; exact I).
  destruct (_parse_grid_table (coupling_table [[u "Tool"; u "EM10"; u "40"]])) as [|d rest] eqn:E;
    [contradiction|].
  exists d. split; [apply elem_of_cons; left; reflexivity|].
  apply (parse_grid_table_rows (Some (u "1")) [u "Coupling type"; u "Name"; u "Reach"]
           [[u "Tool"; u "EM10"; u "40"]] d).
  unfold coupling_table in E. rewrite E. apply elem_of_cons. left. reflexivity.
Defined.

